(** * hackrf_beep: the two-tone beep generator of [hackrf_beep.c]

    A shallow embedding of the transmit callback [tx_callback] and of the
    table precalculation of [main], with the properties of the phase
    bookkeeping, of the buffer filling and of the stored samples. *)

From Stdlib Require Import ZArith Lia Bool Reals Lra Psatz String.
From stdpp Require Import gmap.

Local Open Scope Z_scope.

(** ** C integer types

    The offsets [co], [mo], [so] and the index [i] are [int], the sample
    number [sn] is [long], [count] is [size_t]; the table cells are
    [int8_t], the buffer cells [uint8_t].  Values are kept in [Z], the
    conversion to each type is written out. *)
Module CInt.

Definition wrap_signed (w x : Z) : Z := (x + 2 ^ (w - 1)) mod 2 ^ w - 2 ^ (w - 1).

Definition to_int (x : Z) : Z := wrap_signed 32 x.
Definition to_long (x : Z) : Z := wrap_signed 64 x.
Definition to_int8 (x : Z) : Z := wrap_signed 8 x.
Definition to_uint8 (x : Z) : Z := x mod 2 ^ 8.
Definition to_size_t (x : Z) : Z := x mod 2 ^ 64.

Definition INT_MAX : Z := 2147483647.

End CInt.
Import CInt.

(** ** Globals of the program *)

(** [const uint32_t sr = 8000000] *)
Definition sr : Z := 8000000.

(** [int co, mo, so ; long sn ; bool ms ;] *)
Record phase : Type := Phase {
  co : Z;
  mo : Z;
  so : Z;
  sn : Z;
  ms : bool
}.

(** The values [main] gives them before streaming starts. *)
Definition main_init : phase :=
  {| co := 0; mo := 0; so := 0; sn := 0; ms := false |}.

(** The two fields of [hackrf_transfer] the callback uses: [uint8_t* buffer]
    and [int valid_length].  The buffer is the store of the cells at
    [transfer->buffer + k]: a cell that is absent has not been given a
    value. *)
Record hackrf_transfer : Type := Transfer {
  buffer : gmap Z Z;
  valid_length : Z
}.

(** ** The transmit callback *)
Section Callback.

(** [int8_t mi[6666][10], mq[6666][10], si[3636][10], sq[3636][10]] *)
Variables mi mq si sq : Z -> Z -> Z.

(** [x++ ; x %= n ;] on an [int] *)
Definition incr_mod (n x : Z) : Z := Z.rem (to_int (x + 1)) n.

(** One of the two [while ( i < count )] loops of [tx_callback]: [ti], [tq]
    are the tables it reads, [n] the number of rows, [o] the modulation
    offset it drives ([mo] or [so]) and [c] the carrier offset [co].  [i] is
    an [int] compared with the [size_t] [count].  The result is the buffer
    and the two offsets when the loop is left. *)
Fixpoint wave_loop (ti tq : Z -> Z -> Z) (n : Z) (fuel : nat)
    (count i : Z) (buf : gmap Z Z) (c o : Z) : option (gmap Z Z * Z * Z) :=
  if to_size_t i <? count then
    match fuel with
    | O => None
    | S fuel' =>
        let buf := <[i := to_uint8 (ti o c)]> buf in
        let i := to_int (i + 1) in
        let buf := <[i := to_uint8 (tq o c)]> buf in
        let i := to_int (i + 1) in
        let c := incr_mod 10 c in
        let o := incr_mod n o in
        wave_loop ti tq n fuel' count i buf c o
    end
  else Some (buf, c, o).

(** [tx_callback]: the returned status, the transfer and the globals after
    the call; [None] when [fuel] iterations do not finish the loop. *)
Definition tx_callback (fuel : nat) (transfer : hackrf_transfer) (st : phase)
    : option (Z * hackrf_transfer * phase) :=
  let count := to_size_t (valid_length transfer) in
  let i := 0 in
  let looped :=
    if ms st then
      match wave_loop mi mq 6666 fuel count i (buffer transfer) (co st) (mo st) with
      | Some (buf, c, m) =>
          Some (buf, c, m, Z.quot (to_int (3636 * m)) 6666)
      | None => None
      end
    else
      match wave_loop si sq 3636 fuel count i (buffer transfer) (co st) (so st) with
      | Some (buf, c, s) =>
          Some (buf, c, Z.quot (to_int (6666 * s)) 3636, s)
      | None => None
      end in
  match looped with
  | Some (buf, c, m, s) =>
      let n := to_long (sn st + count) in
      let '(flag, n) :=
        if sr <=? n then (negb (ms st), to_long (n - sr)) else (ms st, n) in
      Some (0,
            {| buffer := buf; valid_length := valid_length transfer |},
            {| co := c; mo := m; so := s; sn := n; ms := flag |})
  | None => None
  end.

End Callback.

(** ** Vocabulary of the statements *)

(** The buffer after [k] turns of the loop body from index [i]: the
    unrolled loop, without the test and without the conversions of [i]. *)
Fixpoint emitted (ti tq : Z -> Z -> Z) (n : Z) (k : nat)
    (i : Z) (buf : gmap Z Z) (c o : Z) : gmap Z Z :=
  match k with
  | O => buf
  | S k' =>
      emitted ti tq n k' (i + 2)
        (<[i + 1 := to_uint8 (tq o c)]> (<[i := to_uint8 (ti o c)]> buf))
        (incr_mod 10 c) (incr_mod n o)
  end.

(** Number of turns of [while ( i < count )] from [i = 0], two bytes a turn. *)
Definition turns (len : Z) : nat := Z.to_nat ((len + 1) / 2).

(** The ranges of the three offsets: they index [t[6666][10]] and
    [t[3636][10]]. *)
Definition offsets_in_range (st : phase) : Prop :=
  0 <= co st < 10 /\ 0 <= mo st < 6666 /\ 0 <= so st < 3636.

(** The buffer and the globals [tx_callback] leaves, once the loop is known
    to run [turns len] times. *)
Definition filled (mi mq si sq : Z -> Z -> Z) (st : phase) (len : Z)
    (buf : gmap Z Z) : gmap Z Z :=
  if ms st
  then emitted mi mq 6666 (turns len) 0 buf (co st) (mo st)
  else emitted si sq 3636 (turns len) 0 buf (co st) (so st).

Definition advance (st : phase) (len : Z) : phase :=
  let k := turns len in
  let c := Nat.iter k (incr_mod 10) (co st) in
  let m := if ms st then Nat.iter k (incr_mod 6666) (mo st)
           else Z.quot (to_int (6666 * Nat.iter k (incr_mod 3636) (so st))) 3636 in
  let s := if ms st then Z.quot (to_int (3636 * Nat.iter k (incr_mod 6666) (mo st))) 6666
           else Nat.iter k (incr_mod 3636) (so st) in
  let n := to_long (sn st + len) in
  if sr <=? n
  then {| co := c; mo := m; so := s; sn := to_long (n - sr); ms := negb (ms st) |}
  else {| co := c; mo := m; so := s; sn := n; ms := ms st |}.

(** A value of the globals while the mark tone is played. *)
Definition mark_state : phase :=
  {| co := 7; mo := 6665; so := 3635; sn := 1000; ms := true |}.

(** Two tables with the same cells at the indices of [t[n][10]]. *)
Definition same_cells (n : Z) (t t' : Z -> Z -> Z) : Prop :=
  forall s c, 0 <= s < n -> 0 <= c < 10 -> t s c = t' s c.

(** ** The table precalculation of [main] *)

(** [for ( int k = lo ; k < hi ; k++ ) body], for constant bounds. *)
Definition for_loop {A : Type} (lo hi : Z) (body : Z -> A -> A) (a : A) : A :=
  fold_left (fun acc k => body (lo + Z.of_nat k) acc) (seq 0 (Z.to_nat (hi - lo))) a.

(** [t[s][c] = v] *)
Definition store (t : Z -> Z -> Z) (s c v : Z) : Z -> Z -> Z :=
  fun s' c' => if (s' =? s) && (c' =? c) then v else t s' c'.

(** Conversion of a [double] to an integer type drops the fractional part. *)
Definition Rtrunc (x : R) : Z :=
  if Rle_dec 0 x then Zfloor x else Zceil x.

(** [( int8_t ) x] for a [double] [x]. *)
Definition cast_int8 (x : R) : Z := to_int8 (Rtrunc x).

Section Precalc.

(** The [double] arithmetic of the platform: [rnd] rounds the exact result
    of an operation to a [double], [sin_d] and [cos_d] are the [sin] and
    [cos] of the C library, [M_PI] is the constant of [math.h]. *)
Variable rnd : R -> R.
Variables sin_d cos_d : R -> R.
Variable M_PI : R.

(** [const double dm = 4.0 / 3.0] *)
Definition dm : R := rnd (4 / 3).
(** [const double tau = 2.0 * M_PI] *)
Definition tau : R := rnd (2 * M_PI).

(** [sa = s * tau / n.0] *)
Definition signal_angle (n s : Z) : R := rnd (rnd (IZR s * tau) / IZR n).
(** [ca = c * tau / 10.0] *)
Definition carrier_angle (c : Z) : R := rnd (rnd (IZR c * tau) / 10).

(** [ca - dm * cos ( sa )] *)
Definition wave_phase (n s c : Z) : R :=
  rnd (carrier_angle c - rnd (dm * cos_d (signal_angle n s))).

(** [127.0 * sin ( ca - dm * cos ( sa ) )] and [127.0 * cos ( ... )] *)
Definition wave_i (n s c : Z) : R := rnd (127 * sin_d (wave_phase n s c)).
Definition wave_q (n s c : Z) : R := rnd (127 * cos_d (wave_phase n s c)).

(** One of the two nested loops of [main], over the pair of tables it
    fills. *)
Definition precalc (n : Z) (t : (Z -> Z -> Z) * (Z -> Z -> Z))
    : (Z -> Z -> Z) * (Z -> Z -> Z) :=
  for_loop 0 n (fun s t =>
    for_loop 0 10 (fun c t =>
      let ti := store (fst t) s c (cast_int8 (wave_i n s c)) in
      let tq := store (snd t) s c (cast_int8 (wave_q n s c)) in
      (ti, tq)) t) t.

(** The globals are zero before [main] runs. *)
Definition zero_table : Z -> Z -> Z := fun _ _ => 0.

Definition mi : Z -> Z -> Z := fst (precalc 6666 (zero_table, zero_table)).
Definition mq : Z -> Z -> Z := snd (precalc 6666 (zero_table, zero_table)).
Definition si : Z -> Z -> Z := fst (precalc 3636 (zero_table, zero_table)).
Definition sq : Z -> Z -> Z := snd (precalc 3636 (zero_table, zero_table)).

End Precalc.

(** One platform among those the statements range over, to evaluate them
    at: arithmetic without rounding error, every operation exact.  The
    tables of the program are [mi rnd sin_d cos_d M_PI] and the like, for
    the platform it runs on. *)
Module Exact.
Definition mi := mi id sin cos PI.
Definition mq := mq id sin cos PI.
Definition si := si id sin cos PI.
Definition sq := sq id sin cos PI.
End Exact.

(** The samples as the specification words them: the exact sine and cosine
    of the exact phase, scaled by 127 and rounded to the nearest integer. *)
Module Spec.
Definition round_nearest (x : R) : Z := Zfloor (x + 1 / 2).
Definition phase_at (n s c : Z) : R :=
  (2 * PI * IZR c / 10 - 4 / 3 * cos (2 * PI * IZR s / IZR n))%R.
Definition sample_i (n s c : Z) : Z := round_nearest (127 * sin (phase_at n s c)).
Definition sample_q (n s c : Z) : Z := round_nearest (127 * cos (phase_at n s c)).
End Spec.

(** ** The callback under the driver *)

(** The driver calls [tx_callback] once per transfer: the globals after the
    calls for the transfers of lengths [lens], in this order, each call with
    [fuel] turns of fuel.  The globals do not depend on what the buffers
    hold, so each transfer is given the empty buffer. *)
Fixpoint calls (mi mq si sq : Z -> Z -> Z) (fuel : nat) (lens : list Z)
    (st : phase) : option phase :=
  match lens with
  | [] => Some st
  | len :: rest =>
      match tx_callback mi mq si sq fuel (Transfer ∅ len) st with
      | Some (_, _, st') => calls mi mq si sq fuel rest st'
      | None => None
      end
  end.

(** Bytes asked for by a list of transfers. *)
Definition total (lens : list Z) : Z := fold_right Z.add 0 lens.

(** ** [main] and the signal handler

    The calls into libhackrf and the C library are events of a trace; what
    they return is given by the world the program runs in. *)

Inductive signame : Type :=
  SIGINT | SIGILL | SIGFPE | SIGSEGV | SIGTERM | SIGABRT.

Inductive exit_status : Type := EXIT_SUCCESS | EXIT_FAILURE.

(** The functions of libhackrf [main] calls, with their arguments other
    than the device (and, for [hackrf_start_tx], other than the callback). *)
Inductive libcall : Type :=
| hackrf_init
| hackrf_open
| hackrf_set_sample_rate_manual (freq_hz divider : Z)
| hackrf_compute_baseband_filter_bw_round_down_lt (bandwidth_hz : Z)
| hackrf_set_baseband_filter_bandwidth (bandwidth_hz : Z)
| hackrf_set_txvga_gain (value : Z)
| hackrf_start_tx
| hackrf_set_freq (freq_hz : Z)
| hackrf_set_amp_enable (value : Z)
| hackrf_is_streaming
| hackrf_stop_tx
| hackrf_close
| hackrf_exit.

(** What the process does that is seen from outside.  [Stderr] and [Stdout]
    carry the format and the integers printed; the name [hackrf_error_name]
    gives for a result is a function of the result and is left out. *)
Inductive event : Type :=
| Install (s : signame)
| Stderr (format : string) (args : list Z)
| Stdout (format : string)
| Precalc
| Lib (c : libcall)
| Sleep (seconds : Z).

(** What the world answers: the result of each call of the setup and of the
    shutdown, the pointer [hackrf_open] stores in [device], the result of
    the [k]-th call of [hackrf_is_streaming], and the signal, if any, that
    is delivered between the call before it and that call ([k = 0]: while
    [main] sets up). *)
Record world : Type := World {
  w_init : Z;
  w_open : Z;
  w_device : option Z;
  w_rate : Z;
  w_bw_of : Z -> Z;
  w_bw : Z;
  w_gain : Z;
  w_start : Z;
  w_freq : Z;
  w_amp : Z;
  w_streaming : nat -> Z;
  w_signal : nat -> option Z;
  w_stop : Z;
  w_close : Z
}.

(** [static hackrf_device* device], [volatile bool do_exit], the trace so
    far and the number of calls of [hackrf_is_streaming] so far. *)
Record process : Type := Process {
  out : list event;
  do_exit : bool;
  device : option Z;
  polls : nat
}.

(** A step of [main] goes on with a value, returns from [main], or is out of
    fuel in the waiting loop. *)
Inductive flow (A : Type) : Type :=
| Next (a : A)
| Return (status : exit_status)
| Spin.
Arguments Next {A} a.
Arguments Return {A} status.
Arguments Spin {A}.

Definition M (A : Type) : Type := process -> flow A * process.

Definition ret {A : Type} (a : A) : M A := fun p => (Next a, p).

Definition bind {A B : Type} (m : M A) (k : A -> M B) : M B :=
  fun p =>
    match m p with
    | (Next a, p') => k a p'
    | (Return status, p') => (Return status, p')
    | (Spin, p') => (Spin, p')
    end.

Notation "x <~ m ;; k" := (bind m (fun x => k))
  (at level 100, m at next level, right associativity).
Notation "m ;;; k" := (bind m (fun _ => k))
  (at level 100, right associativity).

Definition return_ {A : Type} (status : exit_status) : M A :=
  fun p => (Return status, p).

Definition spin {A : Type} : M A := fun p => (Spin, p).

Definition emit (e : event) : M unit :=
  fun p => (Next tt, {| out := out p ++ [e]; do_exit := do_exit p;
                        device := device p; polls := polls p |}).

Definition get_do_exit : M bool := fun p => (Next (do_exit p), p).
Definition get_device : M (option Z) := fun p => (Next (device p), p).

(** [const uint64_t tf = 144000000L], [const unsigned int gain = 47] *)
Definition tf : Z := 144000000.
Definition gain : Z := 47.

Section Main.

(** [HACKRF_SUCCESS] and [HACKRF_TRUE] of [libhackrf/hackrf.h]. *)
Variables HACKRF_SUCCESS HACKRF_TRUE : Z.
Variable w : world.

(** A call into the library: the event, then the result the world gives. *)
Definition lib (c : libcall) (result : Z) : M Z :=
  emit (Lib c) ;;; ret result.

(** [if ( result != HACKRF_SUCCESS ) { fprintf ( stderr, format, ... ) ;
    return EXIT_FAILURE ; }] *)
Definition check (result : Z) (format : string) : M unit :=
  if result =? HACKRF_SUCCESS then ret tt
  else emit (Stderr format [result]) ;;; return_ EXIT_FAILURE.

(** [sigint_callback_handler] *)
Definition sigint_callback_handler (signum : Z) : M unit :=
  emit (Stderr "Caught signal %d\n" [signum]) ;;;
  fun p => (Next tt, {| out := out p; do_exit := true;
                        device := device p; polls := polls p |}).

(** The signal the world delivers before the next call of
    [hackrf_is_streaming] runs the handler. *)
Definition deliver : M unit :=
  fun p =>
    match w_signal w (polls p) with
    | Some signum => sigint_callback_handler signum p
    | None => (Next tt, p)
    end.

(** [hackrf_is_streaming ( device )] *)
Definition poll : M Z :=
  fun p => (Next (w_streaming w (polls p)),
            {| out := out p ++ [Lib hackrf_is_streaming]; do_exit := do_exit p;
               device := device p; polls := S (polls p) |}).

(** [hackrf_open ( &device )] *)
Definition open_device : M Z :=
  emit (Lib hackrf_open) ;;;
  fun p => (Next (w_open w), {| out := out p; do_exit := do_exit p;
                                device := w_device w; polls := polls p |}).

(** [main] up to the message that it transmits. *)
Definition main_setup : M unit :=
  emit (Install SIGINT) ;;; emit (Install SIGILL) ;;; emit (Install SIGFPE) ;;;
  emit (Install SIGSEGV) ;;; emit (Install SIGTERM) ;;; emit (Install SIGABRT) ;;;
  emit (Stderr "Precalculating lookup tables...\n" []) ;;;
  emit Precalc ;;;
  emit (Stderr "Setting up the HackRF...\n" []) ;;;
  result <~ lib hackrf_init (w_init w) ;;
  check result "hackrf_init() failed: %s (%d)\n" ;;;
  result <~ open_device ;;
  check result "hackrf_open() failed: %s (%d)\n" ;;;
  result <~ lib (hackrf_set_sample_rate_manual sr 1) (w_rate w) ;;
  check result "hackrf_sample_rate_set() failed: %s (%d)\n" ;;;
  bw <~ lib (hackrf_compute_baseband_filter_bw_round_down_lt sr) (w_bw_of w sr) ;;
  result <~ lib (hackrf_set_baseband_filter_bandwidth bw) (w_bw w) ;;
  check result "hackrf_baseband_filter_bandwidth_set() failed: %s (%d)\n" ;;;
  result <~ lib (hackrf_set_txvga_gain gain) (w_gain w) ;;
  started <~ lib hackrf_start_tx (w_start w) ;;
  check (Z.lor result started) "hackrf_start_tx() failed: %s (%d)\n" ;;;
  result <~ lib (hackrf_set_freq tf) (w_freq w) ;;
  check result "hackrf_set_freq() failed: %s (%d)\n" ;;;
  result <~ lib (hackrf_set_amp_enable 1) (w_amp w) ;;
  check result "hackrf_set_amp_enable() failed: %s (%d)\n" ;;;
  emit (Stderr "Transmitting, stop with Ctrl-C\n" []).

(** [while ( ( hackrf_is_streaming ( device ) == HACKRF_TRUE ) &&
    ( do_exit == false ) ) sleep ( 1 ) ;] *)
Fixpoint main_wait (fuel : nat) : M unit :=
  deliver ;;;
  streaming <~ poll ;;
  stop <~ get_do_exit ;;
  if (streaming =? HACKRF_TRUE) && negb stop then
    match fuel with
    | O => spin
    | S fuel' => emit (Sleep 1) ;;; main_wait fuel'
    end
  else ret tt.

(** [main] from the end of the loop.  A signal that comes after the last
    test of the loop runs the handler before [do_exit] is read. *)
Definition main_cleanup : M unit :=
  deliver ;;;
  result <~ poll ;;
  stop <~ get_do_exit ;;
  (if stop then emit (Stdout "\nUser cancel, exiting...\n")
   else emit (Stderr "\nExiting... hackrf_is_streaming() result: %s (%d)\n" [result])) ;;;
  dev <~ get_device ;;
  match dev with
  | Some _ =>
      result <~ lib hackrf_stop_tx (w_stop w) ;;
      (if result =? HACKRF_SUCCESS then ret tt
       else emit (Stderr "hackrf_stop_tx() failed: %s (%d)\n" [result])) ;;;
      result <~ lib hackrf_close (w_close w) ;;
      (if result =? HACKRF_SUCCESS then ret tt
       else emit (Stderr "hackrf_close() failed: %s (%d)\n" [result])) ;;;
      emit (Lib hackrf_exit)
  | None => ret tt
  end ;;;
  return_ EXIT_SUCCESS.

Definition main (fuel : nat) : M unit :=
  main_setup ;;; main_wait fuel ;;; main_cleanup.

End Main.

(** The process when [main] is entered. *)
Definition boot : process :=
  {| out := []; do_exit := false; device := None; polls := 0 |}.

(** Every test of the setup passes. *)
Definition setup_ok (HACKRF_SUCCESS : Z) (w : world) : Prop :=
  w_init w = HACKRF_SUCCESS /\ w_open w = HACKRF_SUCCESS /\
  w_rate w = HACKRF_SUCCESS /\ w_bw w = HACKRF_SUCCESS /\
  Z.lor (w_gain w) (w_start w) = HACKRF_SUCCESS /\
  w_freq w = HACKRF_SUCCESS /\ w_amp w = HACKRF_SUCCESS.

(** The [k]-th test of the waiting loop goes on: the device streams and
    no signal has come since the test before. *)
Definition going (HACKRF_TRUE : Z) (w : world) (k : nat) : bool :=
  (w_streaming w k =? HACKRF_TRUE) &&
  match w_signal w k with None => true | Some _ => false end.

(** The library calls of a trace, in order. *)
Definition libcalls (t : list event) : list libcall :=
  flat_map (fun e => match e with Lib c => [c] | _ => [] end) t.

(** The library calls of a setup that passes. *)
Definition setup_calls (w : world) : list libcall :=
  [hackrf_init; hackrf_open; hackrf_set_sample_rate_manual sr 1;
   hackrf_compute_baseband_filter_bw_round_down_lt sr;
   hackrf_set_baseband_filter_bandwidth (w_bw_of w sr);
   hackrf_set_txvga_gain gain; hackrf_start_tx;
   hackrf_set_freq tf; hackrf_set_amp_enable 1].

(** The seconds slept in a trace. *)
Definition slept (t : list event) : Z :=
  fold_right (fun e n => match e with Sleep k => k + n | _ => n end) 0 t.

(** The process after the signal the world delivers before a test of the
    loop, and after the call of [hackrf_is_streaming] of the test. *)
Definition after_signal (w : world) (p : process) : process :=
  match w_signal w (polls p) with
  | Some signum =>
      {| out := out p ++ [Stderr "Caught signal %d\n" [signum]]; do_exit := true;
         device := device p; polls := polls p |}
  | None => p
  end.

Definition after_poll (p : process) : process :=
  {| out := out p ++ [Lib hackrf_is_streaming]; do_exit := do_exit p;
     device := device p; polls := S (polls p) |}.

(** The lines a trace prints on [stdout]. *)
Definition printed (t : list event) : list string :=
  flat_map (fun e => match e with Stdout s => [s] | _ => [] end) t.

(** Worlds to run [main] in, with [HACKRF_SUCCESS = 0] and
    [HACKRF_TRUE = 1]: one where the device streams until the world ends,
    one where a signal comes during the second sleep, one where the device
    does not stream and a signal comes after the only test of the loop, one
    where [hackrf_set_freq] fails and one where [hackrf_set_txvga_gain]
    fails. *)
Definition world_on : world :=
  {| w_init := 0; w_open := 0; w_device := Some 1; w_rate := 0;
     w_bw_of := fun hz => hz; w_bw := 0; w_gain := 0; w_start := 0;
     w_freq := 0; w_amp := 0; w_streaming := fun _ => 1;
     w_signal := fun _ => None; w_stop := 0; w_close := 0 |}.

Definition world_interrupted : world :=
  {| w_init := 0; w_open := 0; w_device := Some 1; w_rate := 0;
     w_bw_of := fun hz => hz; w_bw := 0; w_gain := 0; w_start := 0;
     w_freq := 0; w_amp := 0; w_streaming := fun _ => 1;
     w_signal := fun k => if (k =? 2)%nat then Some 2 else None;
     w_stop := 0; w_close := -1 |}.

Definition world_late_signal : world :=
  {| w_init := 0; w_open := 0; w_device := Some 1; w_rate := 0;
     w_bw_of := fun hz => hz; w_bw := 0; w_gain := 0; w_start := 0;
     w_freq := 0; w_amp := 0; w_streaming := fun _ => 0;
     w_signal := fun k => if (k =? 1)%nat then Some 2 else None;
     w_stop := 0; w_close := 0 |}.

Definition world_no_freq : world :=
  {| w_init := 0; w_open := 0; w_device := Some 1; w_rate := 0;
     w_bw_of := fun hz => hz; w_bw := 0; w_gain := 0; w_start := 0;
     w_freq := -1; w_amp := 0; w_streaming := fun _ => 1;
     w_signal := fun _ => None; w_stop := 0; w_close := 0 |}.

Definition world_no_gain : world :=
  {| w_init := 0; w_open := 0; w_device := Some 1; w_rate := 0;
     w_bw_of := fun hz => hz; w_bw := 0; w_gain := -2; w_start := 0;
     w_freq := 0; w_amp := 0; w_streaming := fun _ => 1;
     w_signal := fun _ => None; w_stop := 0; w_close := 0 |}.

(** [x] is farther than [d] from every integer. *)
Definition off_integers (d x : R) : Prop :=
  forall k : Z, (d < Rabs (x - IZR k))%R.

(** * Properties *)

(** ** Integer conversions that change nothing *)

Lemma to_int_small (x : Z) : - 2 ^ 31 <= x < 2 ^ 31 -> to_int x = x.
Proof.
  intros H. unfold to_int, wrap_signed.
  change (2 ^ (32 - 1)) with 2147483648. change (2 ^ 32) with 4294967296.
  change (2 ^ 31) with 2147483648 in H.
  rewrite Z.mod_small; lia.
Qed.

Lemma to_long_small (x : Z) : - 2 ^ 63 <= x < 2 ^ 63 -> to_long x = x.
Proof.
  intros H. unfold to_long, wrap_signed.
  change (2 ^ (64 - 1)) with 9223372036854775808.
  change (2 ^ 64) with 18446744073709551616.
  change (2 ^ 63) with 9223372036854775808 in H.
  rewrite Z.mod_small; lia.
Qed.

Lemma to_int8_small (x : Z) : - 128 <= x < 128 -> to_int8 x = x.
Proof.
  intros H. unfold to_int8, wrap_signed.
  change (2 ^ (8 - 1)) with 128. change (2 ^ 8) with 256.
  rewrite Z.mod_small; lia.
Qed.

Lemma to_size_t_small (x : Z) : 0 <= x < 2 ^ 64 -> to_size_t x = x.
Proof. intros H. unfold to_size_t. apply Z.mod_small. exact H. Qed.

Lemma to_size_t_int_min : to_size_t (to_int (2 ^ 31)) = 2 ^ 64 - 2 ^ 31.
Proof. reflexivity. Qed.

(** Wrapping an [int] keeps its parity, and an even [int] converts to a
    [size_t] below [SIZE_MAX]. *)
Lemma to_int_even (x : Z) : Z.even (to_int x) = Z.even x.
Proof.
  unfold to_int, wrap_signed.
  change (2 ^ (32 - 1)) with 2147483648. change (2 ^ 32) with 4294967296.
  rewrite Z.mod_eq by lia.
  rewrite !Z.even_sub, Z.even_add, Z.even_mul. cbn [Z.even].
  destruct (Z.even x); reflexivity.
Qed.

Lemma size_t_even_below (i : Z) :
  Z.even i = true -> (to_size_t i <? to_size_t (-1)) = true.
Proof.
  intros Hi. unfold to_size_t.
  change ((-1) mod 2 ^ 64) with 18446744073709551615.
  change (2 ^ 64) with 18446744073709551616.
  pose proof (Z.mod_pos_bound i 18446744073709551616 ltac:(lia)) as Hb.
  assert (Z.even (i mod 18446744073709551616) = true) as He.
  { rewrite Z.mod_eq by lia. rewrite Z.even_sub, Z.even_mul, Hi. reflexivity. }
  destruct (Z.eq_dec (i mod 18446744073709551616) 18446744073709551615) as [E|E].
  - rewrite E in He. discriminate He.
  - apply Z.ltb_lt. lia.
Qed.

(** [x++ ; x %= n] on an offset in range is the successor modulo [n]. *)
Lemma incr_mod_valid (n x : Z) :
  0 < n < 2 ^ 31 -> 0 <= x < n -> incr_mod n x = (x + 1) mod n.
Proof.
  intros Hn Hx. unfold incr_mod.
  rewrite to_int_small by lia.
  apply Z.rem_mod_nonneg; lia.
Qed.

Lemma incr_mod_range (n x : Z) :
  0 < n < 2 ^ 31 -> 0 <= x < n -> 0 <= incr_mod n x < n.
Proof.
  intros Hn Hx. rewrite incr_mod_valid by assumption.
  apply Z.mod_pos_bound. lia.
Qed.

Lemma iter_incr_mod (n : Z) (k : nat) (x : Z) :
  0 < n < 2 ^ 31 -> 0 <= x < n ->
  Nat.iter k (incr_mod n) x = (x + Z.of_nat k) mod n.
Proof.
  intros Hn Hx. induction k as [|k IH].
  - simpl. rewrite Z.add_0_r. symmetry. apply Z.mod_small. exact Hx.
  - rewrite Nat.iter_succ, IH.
    rewrite incr_mod_valid by (try apply Z.mod_pos_bound; lia).
    rewrite Zplus_mod_idemp_l. f_equal. lia.
Qed.

Lemma iter_incr_mod_range (n : Z) (k : nat) (x : Z) :
  0 < n < 2 ^ 31 -> 0 <= x < n -> 0 <= Nat.iter k (incr_mod n) x < n.
Proof.
  intros Hn Hx. rewrite iter_incr_mod by assumption.
  apply Z.mod_pos_bound. lia.
Qed.

(** ** The filling loop *)
Section LoopFacts.

Variables ti tq : Z -> Z -> Z.
Variable n : Z.

(** The loop is left at once when the test fails, whatever the fuel. *)
Lemma wave_loop_exit fuel count i buf c o :
  (to_size_t i <? count) = false ->
  wave_loop ti tq n fuel count i buf c o = Some (buf, c, o).
Proof. intros H. destruct fuel; simpl; rewrite H; reflexivity. Qed.

(** With enough fuel the loop runs [(count - i + 1) / 2] turns and stops. *)
Lemma wave_loop_turns (k : nat) : forall fuel count i buf c o,
  (k <= fuel)%nat -> 0 <= i <= count -> count <= INT_MAX ->
  k = Z.to_nat ((count - i + 1) / 2) ->
  wave_loop ti tq n fuel count i buf c o =
    Some (emitted ti tq n k i buf c o,
          Nat.iter k (incr_mod 10) c, Nat.iter k (incr_mod n) o).
Proof.
  unfold INT_MAX.
  induction k as [|k IH]; intros fuel count i buf c o Hfuel Hi Hcount Hk.
  - assert (i = count) as ->.
    { assert ((count - i + 1) / 2 <= 0) by lia.
      destruct (Z.eq_dec i count) as [|Hne]; [assumption|].
      assert (1 <= (count - i + 1) / 2) by (apply Z.div_le_lower_bound; lia).
      lia. }
    apply wave_loop_exit. rewrite to_size_t_small by lia. lia.
  - assert (i < count) as Hlt.
    { destruct (Z.eq_dec i count) as [->|Hne]; [|lia].
      replace (count - count + 1) with 1 in Hk by lia. discriminate Hk. }
    destruct fuel as [|fuel]; [lia|].
    rewrite !Nat.iter_succ_r.
    cbn [wave_loop emitted]. rewrite (to_size_t_small i) by lia.
    destruct (i <? count) eqn:E; [|lia].
    rewrite (to_int_small (i + 1)) by lia.
    destruct (Z_lt_le_dec (i + 2) (2 ^ 31)) as [Hs|Hs].
    + replace (i + 1 + 1) with (i + 2) by lia.
      rewrite (to_int_small (i + 2)) by lia.
      destruct (Z_le_gt_dec (i + 2) count) as [Hle|Hgt].
      * apply IH; try lia.
        replace (count - (i + 2) + 1) with (count - i + 1 + (-1) * 2) by lia.
        rewrite Z.div_add by lia. lia.
      * assert (k = O) as ->.
        { replace (count - i + 1) with 2 in Hk by lia. change (2 / 2) with 1 in Hk. lia. }
        apply wave_loop_exit. rewrite to_size_t_small by lia. lia.
    + assert (i + 2 = 2 ^ 31) as Hw by lia.
      replace (i + 1 + 1) with (2 ^ 31) by lia.
      assert (k = O) as ->.
      { replace (count - i + 1) with 2 in Hk by lia. change (2 / 2) with 1 in Hk. lia. }
      rewrite <- Hw. apply wave_loop_exit. rewrite Hw.
      rewrite to_size_t_int_min. lia.
Qed.

(** Cells outside [i .. i + 2k - 1] keep their content. *)
Lemma emitted_lookup_out (k : nat) : forall i buf c o x,
  (x < i) \/ (i + 2 * Z.of_nat k <= x) ->
  emitted ti tq n k i buf c o !! x = buf !! x.
Proof.
  induction k as [|k IH]; intros i buf c o x Hx; [reflexivity|].
  simpl. rewrite IH by lia.
  rewrite !lookup_insert_ne by lia. reflexivity.
Qed.

(** Turn [j] writes the I sample at [i + 2j] and the Q sample at
    [i + 2j + 1], both read at the offsets reached after [j] turns. *)
Lemma emitted_lookup_i (k : nat) : forall i buf c o (j : nat),
  (j < k)%nat ->
  emitted ti tq n k i buf c o !! (i + 2 * Z.of_nat j) =
    Some (to_uint8 (ti (Nat.iter j (incr_mod n) o) (Nat.iter j (incr_mod 10) c))).
Proof.
  induction k as [|k IH]; intros i buf c o j Hj; [lia|].
  simpl. destruct j as [|j].
  - rewrite emitted_lookup_out by lia.
    replace (i + 2 * Z.of_nat 0) with i by lia.
    rewrite lookup_insert_ne by lia. rewrite lookup_insert_eq. reflexivity.
  - replace (i + 2 * Z.of_nat (S j)) with (i + 2 + 2 * Z.of_nat j) by lia.
    rewrite IH by lia. rewrite !Nat.iter_succ_r. reflexivity.
Qed.

Lemma emitted_lookup_q (k : nat) : forall i buf c o (j : nat),
  (j < k)%nat ->
  emitted ti tq n k i buf c o !! (i + 2 * Z.of_nat j + 1) =
    Some (to_uint8 (tq (Nat.iter j (incr_mod n) o) (Nat.iter j (incr_mod 10) c))).
Proof.
  induction k as [|k IH]; intros i buf c o j Hj; [lia|].
  simpl. destruct j as [|j].
  - rewrite emitted_lookup_out by lia.
    replace (i + 2 * Z.of_nat 0 + 1) with (i + 1) by lia.
    rewrite lookup_insert_eq. reflexivity.
  - replace (i + 2 * Z.of_nat (S j) + 1) with (i + 2 + 2 * Z.of_nat j + 1) by lia.
    rewrite IH by lia. rewrite !Nat.iter_succ_r. reflexivity.
Qed.

(** Every cell of [i .. i + 2k - 1] holds a sample: I at the even places, Q
    at the odd ones. *)
Lemma emitted_lookup_in (k : nat) i buf c o x :
  0 <= x < 2 * Z.of_nat k ->
  emitted ti tq n k i buf c o !! (i + x) =
    Some (to_uint8 ((if Z.even x then ti else tq)
            (Nat.iter (Z.to_nat (x / 2)) (incr_mod n) o)
            (Nat.iter (Z.to_nat (x / 2)) (incr_mod 10) c))).
Proof.
  intros Hx.
  pose proof (Z.div_mod x 2 ltac:(lia)) as Hdm.
  rewrite Zmod_even in Hdm.
  assert (0 <= x / 2) as Hq by (apply Z.div_pos; lia).
  set (j := Z.to_nat (x / 2)).
  assert (x / 2 = Z.of_nat j) as Hj by (unfold j; lia).
  destruct (Z.even x).
  - replace (i + x) with (i + 2 * Z.of_nat j) by lia.
    apply emitted_lookup_i. lia.
  - replace (i + x) with (i + 2 * Z.of_nat j + 1) by lia.
    apply emitted_lookup_q. lia.
Qed.

(** Tables that agree at the indices of [t[n][10]] give the same buffer:
    the loop reads no other cell. *)
Lemma emitted_same_cells (ti' tq' : Z -> Z -> Z) (k : nat) :
  0 < n < 2 ^ 31 -> same_cells n ti ti' -> same_cells n tq tq' ->
  forall i buf c o, 0 <= c < 10 -> 0 <= o < n ->
  emitted ti tq n k i buf c o = emitted ti' tq' n k i buf c o.
Proof.
  intros Hn Hi Hq. induction k as [|k IH]; intros i buf c o Hc Ho; [reflexivity|].
  simpl. rewrite (Hi o c), (Hq o c) by assumption.
  apply IH; apply incr_mod_range; (assumption || lia).
Qed.

(** A negative [valid_length] converts to a [count] that [i] never
    reaches: [i] stays even while [2 ^ 64 - 1] is odd, and the loop does not
    end. *)
Lemma wave_loop_no_exit (fuel : nat) : forall i buf c o,
  Z.even i = true ->
  wave_loop ti tq n fuel (to_size_t (-1)) i buf c o = None.
Proof.
  induction fuel as [|fuel IH]; intros i buf c o Hi; cbn [wave_loop].
  - rewrite size_t_even_below by assumption. reflexivity.
  - rewrite size_t_even_below by assumption. apply IH.
    repeat (rewrite to_int_even || rewrite Z.even_add). rewrite Hi. reflexivity.
Qed.

End LoopFacts.

(** ** The callback *)
Section CallbackFacts.

Variables mi mq si sq : Z -> Z -> Z.

(** For a length an [int] can hold, [turns len] turns of fuel are enough,
    and the call leaves [filled] and [advance]. *)
Lemma tx_callback_run fuel buf len st :
  0 <= len <= INT_MAX -> (turns len <= fuel)%nat ->
  tx_callback mi mq si sq fuel (Transfer buf len) st =
    Some (0, Transfer (filled mi mq si sq st len buf) len, advance st len).
Proof.
  intros Hlen Hfuel. unfold tx_callback, filled, advance.
  cbn [valid_length buffer].
  assert (INT_MAX < 2 ^ 64) by reflexivity.
  rewrite (to_size_t_small len) by lia.
  destruct (ms st).
  - rewrite (wave_loop_turns mi mq 6666 (turns len)); try lia.
    + destruct (sr <=? to_long (sn st + len)); reflexivity.
    + unfold turns. f_equal. f_equal. lia.
  - rewrite (wave_loop_turns si sq 3636 (turns len)); try lia.
    + destruct (sr <=? to_long (sn st + len)); reflexivity.
    + unfold turns. f_equal. f_equal. lia.
Qed.

(** The offsets [advance] leaves, for offsets that were in range. *)
Lemma advance_co st len :
  0 <= co st < 10 ->
  co (advance st len) = (co st + Z.of_nat (turns len)) mod 10.
Proof.
  intros H. unfold advance.
  destruct (sr <=? _); cbn [co]; apply iter_incr_mod; lia.
Qed.

Lemma advance_mark st len :
  ms st = true -> 0 <= mo st < 6666 ->
  mo (advance st len) = (mo st + Z.of_nat (turns len)) mod 6666 /\
  so (advance st len) = 3636 * mo (advance st len) / 6666.
Proof.
  intros Hms H. unfold advance. rewrite Hms.
  assert (0 <= Nat.iter (turns len) (incr_mod 6666) (mo st) < 6666) as Hr
    by (apply iter_incr_mod_range; lia).
  destruct (sr <=? _); cbn [mo so]; (split; [apply iter_incr_mod; lia|]);
    rewrite to_int_small by lia; apply Z.quot_div_nonneg; lia.
Qed.

Lemma advance_space st len :
  ms st = false -> 0 <= so st < 3636 ->
  so (advance st len) = (so st + Z.of_nat (turns len)) mod 3636 /\
  mo (advance st len) = 6666 * so (advance st len) / 3636.
Proof.
  intros Hms H. unfold advance. rewrite Hms.
  assert (0 <= Nat.iter (turns len) (incr_mod 3636) (so st) < 3636) as Hr
    by (apply iter_incr_mod_range; lia).
  destruct (sr <=? _); cbn [mo so]; (split; [apply iter_incr_mod; lia|]);
    rewrite to_int_small by lia; apply Z.quot_div_nonneg; lia.
Qed.

(** The sample number and the flag [advance] leaves. *)
Lemma advance_sn st len :
  0 <= len <= INT_MAX -> 0 <= sn st < 2 ^ 62 ->
  (sn st + len < sr ->
     sn (advance st len) = sn st + len /\ ms (advance st len) = ms st) /\
  (sr <= sn st + len ->
     sn (advance st len) = sn st + len - sr /\
     ms (advance st len) = negb (ms st)).
Proof.
  intros Hlen Hsn. unfold advance, INT_MAX, sr in *.
  change (2 ^ 62) with 4611686018427387904 in Hsn.
  rewrite (to_long_small (sn st + len))
    by (change (2 ^ 63) with 9223372036854775808; lia).
  destruct (8000000 <=? sn st + len) eqn:E; cbn [sn ms]; split; intros Hc;
    try lia; try (split; [|reflexivity]).
  - apply to_long_small. change (2 ^ 63) with 9223372036854775808. lia.
  - reflexivity.
Qed.

(** The bound [0 <= len] of [tx_callback_run] is needed: with a length of
    [-1] no amount of fuel ends the call. *)
Lemma tx_callback_negative_length fuel buf st :
  tx_callback mi mq si sq fuel (Transfer buf (-1)) st = None.
Proof.
  unfold tx_callback. cbn [valid_length buffer].
  destruct (ms st); rewrite wave_loop_no_exit by reflexivity; reflexivity.
Qed.

End CallbackFacts.

(** ** The phase bookkeeping of [tx_callback] *)
Section PhaseClaims.

Variables mi mq si sq : Z -> Z -> Z.

Local Abbreviation call := (tx_callback mi mq si sq).

(** [sn] grows by the number of bytes of the transfer, flag flip apart. *)
Lemma sample_number_step fuel buf len st :
  0 <= len <= INT_MAX -> 0 <= sn st < 2 ^ 62 -> (turns len <= fuel)%nat ->
  exists tr' st', call fuel (Transfer buf len) st = Some (0, tr', st') /\
    (sn st' = sn st + len \/ sn st' = sn st + len - sr).
Proof.
  intros Hlen Hsn Hfuel. eexists _, _. split; [apply tx_callback_run; assumption|].
  destruct (advance_sn st len Hlen Hsn) as [Hlt Hge].
  destruct (Z_lt_le_dec (sn st + len) sr) as [H|H].
  - left. apply Hlt. exact H.
  - right. apply Hge. exact H.
Qed.

(** C1, at the inputs where the code departs from it: a transfer of 2 bytes
    is one complex sample, yet from the state [main] sets up the call leaves
    [sn = 2], not [1]; from [sn = sr - 2], that is after 3999999 complex
    samples, one more sample flips the tone; and one transfer of [sr] bytes,
    4000000 complex samples, flips it: at half a second of output and not at
    a full second. *)
Theorem tx_callback_counts_bytes :
  (exists tr',
     call 1 (Transfer ∅ 2) main_init =
       Some (0, tr', {| co := 1; mo := 1; so := 1; sn := 2; ms := false |})) /\
  (exists tr',
     call 1 (Transfer ∅ 2)
       {| co := 9; mo := 731; so := 399; sn := sr - 2; ms := false |} =
       Some (0, tr', {| co := 0; mo := 733; so := 400; sn := 0; ms := true |})) /\
  (exists tr' st',
     call (turns sr) (Transfer ∅ sr) main_init = Some (0, tr', st') /\
     Z.of_nat (turns sr) = 4000000 /\ ms st' = true /\ sn st' = 0).
Proof.
  split; [eexists; reflexivity|]. split; [eexists; reflexivity|].
  assert (0 <= sr <= INT_MAX) as Hlen by (unfold sr, INT_MAX; lia).
  eexists _, _. split; [apply tx_callback_run; [exact Hlen|apply le_n]|].
  split; [reflexivity|].
  destruct (advance_sn main_init sr Hlen) as [_ Hge]; [cbn [sn main_init]; lia|].
  destruct Hge as [E1 E2]; [cbn [sn main_init]; lia|].
  rewrite E1, E2. split; [reflexivity|]. cbn [sn main_init]. lia.
Qed.

(** C2: after a call from offsets in range, the offset of the tone that
    was not played is the floor of the played offset scaled by the ratio of
    the table lengths, the played offset being the one reached at the end of
    the call. *)
Theorem inactive_offset_translation fuel buf len st :
  offsets_in_range st -> 0 <= len <= INT_MAX -> (turns len <= fuel)%nat ->
  exists tr' st', call fuel (Transfer buf len) st = Some (0, tr', st') /\
    (ms st = true ->
       mo st' = (mo st + Z.of_nat (turns len)) mod 6666 /\
       so st' = 3636 * mo st' / 6666) /\
    (ms st = false ->
       so st' = (so st + Z.of_nat (turns len)) mod 3636 /\
       mo st' = 6666 * so st' / 3636).
Proof.
  intros (Hc & Hm & Hs) Hlen Hfuel.
  eexists _, _. split; [apply tx_callback_run; assumption|].
  split; intros Hms.
  - apply advance_mark; assumption.
  - apply advance_space; assumption.
Qed.

(** [advance] keeps the offsets in range. *)
Lemma advance_in_range st len :
  offsets_in_range st -> offsets_in_range (advance st len).
Proof.
  intros (Hc & Hm & Hs). unfold offsets_in_range.
  rewrite advance_co by assumption.
  split; [apply Z.mod_pos_bound; lia|].
  destruct (ms st) eqn:Hms.
  - destruct (advance_mark st len Hms Hm) as [E1 E2].
    assert (0 <= mo (advance st len) < 6666) as Hr
      by (rewrite E1; apply Z.mod_pos_bound; lia).
    split; [exact Hr|]. rewrite E2. split.
    + apply Z.div_pos; lia.
    + apply Z.div_lt_upper_bound; lia.
  - destruct (advance_space st len Hms Hs) as [E1 E2].
    assert (0 <= so (advance st len) < 3636) as Hr
      by (rewrite E1; apply Z.mod_pos_bound; lia).
    split; [|exact Hr]. rewrite E2. split.
    + apply Z.div_pos; lia.
    + apply Z.div_lt_upper_bound; lia.
Qed.

(** C5: the three ranges are kept by a call, and the call reads the tables
    inside their bounds only: tables that differ outside [t[6666][10]] and
    [t[3636][10]] give the same transfer and the same globals. *)
Theorem offsets_stay_in_range fuel buf len st :
  offsets_in_range st -> 0 <= len <= INT_MAX -> (turns len <= fuel)%nat ->
  exists tr' st', call fuel (Transfer buf len) st = Some (0, tr', st') /\
    offsets_in_range st' /\
    forall mi' mq' si' sq',
      same_cells 6666 mi mi' -> same_cells 6666 mq mq' ->
      same_cells 3636 si si' -> same_cells 3636 sq sq' ->
      tx_callback mi' mq' si' sq' fuel (Transfer buf len) st = Some (0, tr', st').
Proof.
  intros Hr Hlen Hfuel.
  eexists _, _. split; [apply tx_callback_run; assumption|].
  split; [apply advance_in_range; assumption|].
  intros mi' mq' si' sq' Hmi Hmq Hsi Hsq.
  rewrite tx_callback_run by assumption.
  destruct Hr as (Hc & Hm & Hs).
  unfold filled. destruct (ms st).
  - rewrite (emitted_same_cells mi mq 6666 mi' mq'); try assumption; try reflexivity.
    split; reflexivity.
  - rewrite (emitted_same_cells si sq 3636 si' sq'); try assumption; try reflexivity.
    split; reflexivity.
Qed.

(** C7: for every length an [int] holds and every value of the globals the
    call returns, and the status it returns is 0. *)
Theorem tx_callback_status tr st :
  0 <= valid_length tr <= INT_MAX ->
  (exists tr' st',
     call (turns (valid_length tr)) tr st = Some (0, tr', st')) /\
  (forall fuel ret tr' st',
     call fuel tr st = Some (ret, tr', st') -> ret = 0).
Proof.
  intros Hlen. split.
  - destruct tr as [buf len]. eexists _, _. apply tx_callback_run; [assumption|apply le_n].
  - intros fuel ret tr' st'. unfold tx_callback.
    destruct (ms st);
      destruct (wave_loop _ _ _ _ _ _ _ _ _) as [[[b c] o]|];
      try discriminate;
      destruct (sr <=? _); intros [= <- _ _]; reflexivity.
Qed.

(** C10: a call flips the flag once at most.  When the sample number
    reaches [sr] the flag is negated and [sr] is taken off once; when it
    reaches two times [sr] or more the flag is still negated once only, and
    the sample number left is [sr] or more. *)
Theorem tone_flips_once fuel buf len st :
  0 <= len <= INT_MAX -> 0 <= sn st < 2 ^ 62 -> (turns len <= fuel)%nat ->
  exists tr' st', call fuel (Transfer buf len) st = Some (0, tr', st') /\
    (sn st + len < sr -> ms st' = ms st /\ sn st' = sn st + len) /\
    (sr <= sn st + len -> ms st' = negb (ms st) /\ sn st' = sn st + len - sr) /\
    (2 * sr <= sn st + len -> ms st' = negb (ms st) /\ sr <= sn st').
Proof.
  intros Hlen Hsn Hfuel.
  eexists _, _. split; [apply tx_callback_run; assumption|].
  destruct (advance_sn st len Hlen Hsn) as [Hlt Hge].
  split; [|split].
  - intros H. destruct (Hlt H). split; assumption.
  - intros H. destruct (Hge H). split; assumption.
  - intros H. assert (0 < sr) by reflexivity.
    destruct Hge as [E1 E2]; [lia|]. split; [assumption|lia].
Qed.

End PhaseClaims.

(** ** The bytes [tx_callback] writes *)

Lemma turns_bound (len : Z) :
  0 <= len -> len <= 2 * Z.of_nat (turns len) <= len + 1.
Proof.
  intros H. unfold turns.
  assert (0 <= (len + 1) / 2) by (apply Z.div_pos; lia).
  rewrite Z2Nat.id by assumption.
  pose proof (Z.div_mod (len + 1) 2 ltac:(lia)).
  pose proof (Z.mod_pos_bound (len + 1) 2 ltac:(lia)). lia.
Qed.

Lemma turns_even (len : Z) :
  0 <= len -> Z.even len = true -> 2 * Z.of_nat (turns len) = len.
Proof.
  intros H E. unfold turns.
  assert (0 <= (len + 1) / 2) by (apply Z.div_pos; lia).
  rewrite Z2Nat.id by assumption.
  pose proof (Z.div_mod len 2 ltac:(lia)) as Hd. rewrite Zmod_even, E in Hd.
  replace (len + 1) with (1 + len / 2 * 2) by lia.
  rewrite Z.div_add by lia. change (1 / 2) with 0. lia.
Qed.

Lemma turns_odd (len : Z) :
  0 <= len -> Z.odd len = true -> 2 * Z.of_nat (turns len) = len + 1.
Proof.
  intros H E. unfold turns.
  assert (0 <= (len + 1) / 2) by (apply Z.div_pos; lia).
  rewrite Z2Nat.id by assumption.
  pose proof (Z.div_mod len 2 ltac:(lia)) as Hd. rewrite Zmod_odd, E in Hd.
  replace (len + 1) with (0 + (len / 2 + 1) * 2) by lia.
  rewrite Z.div_add by lia. change (0 / 2) with 0. lia.
Qed.

Section BufferClaims.

Variables mi mq si sq : Z -> Z -> Z.

Local Abbreviation call := (tx_callback mi mq si sq).

(** The cells of [filled], for any value of the globals. *)
Lemma filled_lookup_in st len buf x :
  0 <= x < 2 * Z.of_nat (turns len) ->
  exists s c,
    filled mi mq si sq st len buf !! x =
      Some (to_uint8 ((if Z.even x then (if ms st then mi else si)
                       else (if ms st then mq else sq)) s c)) /\
    s = Nat.iter (Z.to_nat (x / 2))
          (incr_mod (if ms st then 6666 else 3636)) (if ms st then mo st else so st) /\
    c = Nat.iter (Z.to_nat (x / 2)) (incr_mod 10) (co st).
Proof.
  intros Hx. eexists _, _. split; [|split; reflexivity].
  unfold filled. replace x with (0 + x) at 1 by lia.
  destruct (ms st); rewrite emitted_lookup_in by assumption; reflexivity.
Qed.

Lemma filled_lookup_out st len buf x :
  (x < 0) \/ (2 * Z.of_nat (turns len) <= x) ->
  filled mi mq si sq st len buf !! x = buf !! x.
Proof.
  intros Hx. unfold filled.
  destruct (ms st); apply emitted_lookup_out; lia.
Qed.

(** C4, as the code has it: for an odd length the last pair is not cut
    short.  The call writes the cells [0 .. len], one more than [len], and
    the last of them, at index [len], is the Q sample of the pair whose I
    sample is at [len - 1]; no other cell changes. *)
Theorem odd_length_writes_whole_pair fuel buf len st :
  0 <= len <= INT_MAX -> Z.odd len = true -> (turns len <= fuel)%nat ->
  exists tr' st', call fuel (Transfer buf len) st = Some (0, tr', st') /\
    (forall x, 0 <= x <= len -> is_Some (buffer tr' !! x)) /\
    (forall x, (x < 0) \/ (len < x) -> buffer tr' !! x = buf !! x) /\
    (exists s c,
       buffer tr' !! (len - 1) = Some (to_uint8 ((if ms st then mi else si) s c)) /\
       buffer tr' !! len = Some (to_uint8 ((if ms st then mq else sq) s c))).
Proof.
  intros Hlen Hodd Hfuel.
  eexists _, _. split; [apply tx_callback_run; assumption|].
  cbn [buffer].
  pose proof (turns_odd len ltac:(lia) Hodd) as Hk.
  split; [|split].
  - intros x Hx.
    destruct (filled_lookup_in st len buf x ltac:(lia)) as (s & c & E & _).
    rewrite E. eexists. reflexivity.
  - intros x Hx. apply filled_lookup_out. lia.
  - destruct (filled_lookup_in st len buf (len - 1) ltac:(lia)) as (s & c & E & Hs & Hc).
    destruct (filled_lookup_in st len buf len ltac:(lia)) as (s' & c' & E' & Hs' & Hc').
    assert (Z.even (len - 1) = true) as Hev.
    { rewrite Z.even_sub. rewrite <- Z.negb_odd, Hodd. reflexivity. }
    assert (Z.even len = false) as Hev' by (rewrite <- Z.negb_odd, Hodd; reflexivity).
    assert ((len - 1) / 2 = len / 2) as Hq.
    { pose proof (Z.div_mod len 2 ltac:(lia)) as Hd. rewrite Zmod_odd, Hodd in Hd.
      replace (len - 1) with (0 + len / 2 * 2) by lia.
      rewrite Z.div_add by lia. reflexivity. }
    rewrite Hev in E. rewrite Hev' in E'. rewrite Hq in Hs, Hc.
    exists s, c. split; [exact E|]. rewrite E'. subst. reflexivity.
Qed.

(** For an even length the call writes the cells [0 .. len - 1] and no
    other. *)
Lemma even_length_writes_len fuel buf len st :
  0 <= len <= INT_MAX -> Z.even len = true -> (turns len <= fuel)%nat ->
  exists tr' st', call fuel (Transfer buf len) st = Some (0, tr', st') /\
    (forall x, 0 <= x < len -> is_Some (buffer tr' !! x)) /\
    (forall x, (x < 0) \/ (len <= x) -> buffer tr' !! x = buf !! x).
Proof.
  intros Hlen Hev Hfuel.
  eexists _, _. split; [apply tx_callback_run; assumption|].
  cbn [buffer].
  pose proof (turns_even len ltac:(lia) Hev) as Hk.
  split.
  - intros x Hx.
    destruct (filled_lookup_in st len buf x ltac:(lia)) as (s & c & E & _).
    rewrite E. eexists. reflexivity.
  - intros x Hx. apply filled_lookup_out. lia.
Qed.

(** The cells of [filled] when the offsets are in range. *)
Lemma filled_lookup_valid st len buf x :
  offsets_in_range st -> 0 <= x < 2 * Z.of_nat (turns len) ->
  let n := if ms st then 6666 else 3636 in
  let o := if ms st then mo st else so st in
  filled mi mq si sq st len buf !! x =
    Some (to_uint8 ((if Z.even x then (if ms st then mi else si)
                     else (if ms st then mq else sq))
                      ((o + x / 2) mod n) ((co st + x / 2) mod 10))).
Proof.
  intros (Hc & Hm & Hs) Hx n o.
  destruct (filled_lookup_in st len buf x Hx) as (s & c & E & -> & ->).
  rewrite E. fold n o.
  assert (0 <= x / 2) by (apply Z.div_pos; lia).
  rewrite !iter_incr_mod; try lia.
  - rewrite Z2Nat.id by assumption. reflexivity.
  - unfold n. destruct (ms st); split; reflexivity.
  - unfold n, o. destruct (ms st); assumption.
Qed.

(** C8: while one tone is played the output repeats after [n * 10] complex
    samples, [n] the rows of the table played: within a call the byte
    [2 * (n * 10)] places further on is the same byte, and a call of
    [n * 10] samples brings the carrier offset and the offset of the tone
    played back to where they were. *)
Theorem fixed_tone_period fuel buf len st :
  offsets_in_range st -> 0 <= len <= INT_MAX -> (turns len <= fuel)%nat ->
  let n := if ms st then 6666 else 3636 in
  exists tr' st', call fuel (Transfer buf len) st = Some (0, tr', st') /\
    (forall x, 0 <= x -> x + 2 * (n * 10) < len ->
       buffer tr' !! (x + 2 * (n * 10)) = buffer tr' !! x) /\
    (len = 2 * (n * 10) ->
       co st' = co st /\
       (if ms st then mo st' = mo st else so st' = so st)).
Proof.
  intros Hr Hlen Hfuel n.
  eexists _, _. split; [apply tx_callback_run; assumption|].
  cbn [buffer].
  pose proof (turns_bound len ltac:(lia)) as Hk.
  assert (0 < n) as Hn by (unfold n; destruct (ms st); reflexivity).
  split.
  - intros x Hx Hxl.
    rewrite !filled_lookup_valid by (assumption || lia).
    rewrite Z.even_add_mul_2.
    replace (x + 2 * (n * 10)) with (x + n * 10 * 2) by lia.
    rewrite Z.div_add by lia. fold n.
    f_equal. f_equal. f_equal.
    + replace (_ + (x / 2 + n * 10)) with ((if ms st then mo st else so st) + x / 2 + 10 * n) by lia.
      apply Z_mod_plus_full.
    + replace (co st + (x / 2 + n * 10)) with (co st + x / 2 + n * 10) by lia.
      apply Z_mod_plus_full.
  - intros ->. destruct Hr as (Hc & Hm & Hs).
    assert (Z.of_nat (turns (2 * (n * 10))) = n * 10) as Ht.
    { pose proof (turns_even (2 * (n * 10)) ltac:(lia)) as Ht.
      rewrite Z.even_mul in Ht. specialize (Ht eq_refl). lia. }
    split.
    + rewrite advance_co by assumption. rewrite Ht.
      rewrite Z_mod_plus_full. apply Z.mod_small. assumption.
    + unfold n in *. destruct (ms st) eqn:Hms.
      * destruct (advance_mark st (2 * (6666 * 10)) Hms Hm) as [-> _]. rewrite Ht.
        replace (mo st + 6666 * 10) with (mo st + 10 * 6666) by lia.
        rewrite Z_mod_plus_full. apply Z.mod_small. assumption.
      * destruct (advance_space st (2 * (3636 * 10)) Hms Hs) as [-> _]. rewrite Ht.
        replace (so st + 3636 * 10) with (so st + 10 * 3636) by lia.
        rewrite Z_mod_plus_full. apply Z.mod_small. assumption.
Qed.

End BufferClaims.

(** ** The tables [main] fills *)

Ltac cmp_cases :=
  repeat match goal with
  | |- context [(?a =? ?b)] => destruct (Z.eqb_spec a b)
  | |- context [(?a <=? ?b)] => destruct (Z.leb_spec a b)
  | |- context [(?a <? ?b)] => destruct (Z.ltb_spec a b)
  end; cbn [andb]; try lia; try reflexivity.

(** A [for] loop keeps what its body keeps. *)
Lemma for_loop_invariant {A : Type} (P : Z -> A -> Prop) lo hi body (a : A) :
  lo <= hi -> P lo a ->
  (forall k x, lo <= k < hi -> P k x -> P (k + 1) (body k x)) ->
  P hi (for_loop lo hi body a).
Proof.
  intros Hle H0 Hstep. unfold for_loop.
  assert (forall m : nat, lo + Z.of_nat m <= hi ->
            P (lo + Z.of_nat m)
              (fold_left (fun acc k => body (lo + Z.of_nat k) acc) (seq 0 m) a)) as Hm.
  { induction m as [|m IH]; intros Hb.
    - simpl. rewrite Z.add_0_r. exact H0.
    - rewrite seq_S, fold_left_app. simpl.
      replace (lo + Z.of_nat (S m)) with (lo + Z.of_nat m + 1) by lia.
      apply Hstep; [lia|]. apply IH. lia. }
  specialize (Hm (Z.to_nat (hi - lo))).
  replace (lo + Z.of_nat (Z.to_nat (hi - lo))) with hi in Hm by lia.
  apply Hm. lia.
Qed.

Section PrecalcFacts.

Variable rnd : R -> R.
Variables sin_d cos_d : R -> R.
Variable M_PI : R.

Local Abbreviation wi := (wave_i rnd sin_d cos_d M_PI).
Local Abbreviation wq := (wave_q rnd cos_d M_PI).

(** After the two nested loops the cells of [t[n][10]] hold the converted
    samples, whatever they held before, and no other cell has changed. *)
Lemma precalc_lookup n t s c :
  0 <= n ->
  fst (precalc rnd sin_d cos_d M_PI n t) s c =
    (if (0 <=? s) && (s <? n) && (0 <=? c) && (c <? 10)
     then cast_int8 (wi n s c) else fst t s c) /\
  snd (precalc rnd sin_d cos_d M_PI n t) s c =
    (if (0 <=? s) && (s <? n) && (0 <=? c) && (c <? 10)
     then cast_int8 (wq n s c) else snd t s c).
Proof.
  intros Hn. unfold precalc. revert s c.
  apply (for_loop_invariant (fun hi u => forall s c,
    fst u s c = (if (0 <=? s) && (s <? hi) && (0 <=? c) && (c <? 10)
                 then cast_int8 (wi n s c) else fst t s c) /\
    snd u s c = (if (0 <=? s) && (s <? hi) && (0 <=? c) && (c <? 10)
                 then cast_int8 (wq n s c) else snd t s c))).
  - exact Hn.
  - intros s c. split; cmp_cases.
  - intros r u Hr Hu.
    match goal with |- context [for_loop 0 10 ?b u] =>
      assert (forall s c,
        fst (for_loop 0 10 b u) s c =
          (if (s =? r) && (0 <=? c) && (c <? 10)
           then cast_int8 (wi n s c) else fst u s c) /\
        snd (for_loop 0 10 b u) s c =
          (if (s =? r) && (0 <=? c) && (c <? 10)
           then cast_int8 (wq n s c) else snd u s c)) as Hin
    end.
    { apply (for_loop_invariant (fun hi v => forall s c,
        fst v s c = (if (s =? r) && (0 <=? c) && (c <? hi)
                     then cast_int8 (wi n s c) else fst u s c) /\
        snd v s c = (if (s =? r) && (0 <=? c) && (c <? hi)
                     then cast_int8 (wq n s c) else snd u s c))).
      - lia.
      - intros s c. split; cmp_cases.
      - intros k v Hk Hv s c. cbn [fst snd]. unfold store.
        destruct (Hv s c) as [-> ->]. split; cmp_cases; subst; reflexivity. }
    intros s c. destruct (Hin s c) as [-> ->].
    destruct (Hu s c) as [-> ->]. split; cmp_cases; subst; reflexivity.
Qed.

End PrecalcFacts.

(** ** The conversion of the samples *)

(** [Rtrunc] rounds toward zero: the result is no larger in magnitude than
    the argument and less than one away from it. *)
Lemma Rtrunc_toward_zero (x : R) :
  (Rabs (IZR (Rtrunc x)) <= Rabs x)%R /\ (Rabs (x - IZR (Rtrunc x)) < 1)%R.
Proof.
  unfold Rtrunc. destruct (Rle_dec 0 x) as [Hx|Hx].
  - pose proof (Zfloor_bound x) as [Hl Hu].
    assert (0 <= Zfloor x) as Hz by (apply Zfloor_lub; exact Hx).
    apply IZR_le in Hz.
    rewrite !Rabs_pos_eq by lra. lra.
  - pose proof (Zceil_bound x) as [Hl Hu].
    assert (Zceil x <= 0) as Hz.
    { assert (Zceil x < 1); [|lia]. apply lt_IZR. lra. }
    apply IZR_le in Hz.
    rewrite (Rabs_left1 (IZR (Zceil x))) by lra.
    rewrite (Rabs_left1 x) by lra.
    rewrite (Rabs_left1 (x - IZR (Zceil x))) by lra. lra.
Qed.

Lemma Rtrunc_range (x : R) (k : Z) :
  (- IZR k <= x <= IZR k)%R -> - k <= Rtrunc x <= k.
Proof.
  intros [Hl Hu]. unfold Rtrunc. destruct (Rle_dec 0 x) as [Hx|Hx].
  - pose proof (Zfloor_bound x) as [Hfl Hfu].
    assert (0 <= Zfloor x) by (apply Zfloor_lub; exact Hx).
    assert (Zfloor x <= k) by (apply le_IZR; lra). lia.
  - pose proof (Zceil_bound x) as [Hcl Hcu].
    assert (Zceil x < 1) by (apply lt_IZR; lra).
    assert (- k <= Zceil x) by (apply le_IZR; rewrite opp_IZR; lra).
    assert (0 <= k) by (apply le_IZR; lra). lia.
Qed.

(** A [double] within [-127, 127] converts to [int8_t] without wrapping. *)
Lemma cast_int8_exact (x : R) :
  (-127 <= x <= 127)%R -> cast_int8 x = Rtrunc x /\ Z.abs (Rtrunc x) <= 127.
Proof.
  intros H. pose proof (Rtrunc_range x 127 H) as Hr.
  unfold cast_int8. rewrite to_int8_small by lia. split; [reflexivity|lia].
Qed.

Section Bounded.

Variable rnd : R -> R.
Variables sin_d cos_d : R -> R.
Variable M_PI : R.

(** What is asked of the platform: rounding to a [double] is monotone and
    leaves 127 and -127, which are [double]s, as they are; the library sine
    and cosine stay within [-1, 1]. *)
Hypothesis rnd_monotone : forall x y : R, (x <= y)%R -> (rnd x <= rnd y)%R.
Hypothesis rnd_127 : rnd 127 = 127%R.
Hypothesis rnd_m127 : rnd (-127) = (-127)%R.
Hypothesis sin_d_range : forall x : R, (-1 <= sin_d x <= 1)%R.
Hypothesis cos_d_range : forall x : R, (-1 <= cos_d x <= 1)%R.

Lemma wave_i_range n s c :
  (-127 <= wave_i rnd sin_d cos_d M_PI n s c <= 127)%R.
Proof.
  unfold wave_i. pose proof (sin_d_range (wave_phase rnd cos_d M_PI n s c)) as H.
  split.
  - rewrite <- rnd_m127. apply rnd_monotone. lra.
  - rewrite <- rnd_127 at 2. apply rnd_monotone. lra.
Qed.

Lemma wave_q_range n s c :
  (-127 <= wave_q rnd cos_d M_PI n s c <= 127)%R.
Proof.
  unfold wave_q. pose proof (cos_d_range (wave_phase rnd cos_d M_PI n s c)) as H.
  split.
  - rewrite <- rnd_m127. apply rnd_monotone. lra.
  - rewrite <- rnd_127 at 2. apply rnd_monotone. lra.
Qed.

(** The cells of a filled table: the truncated samples, in [-127, 127]. *)
Lemma precalc_cell n t s c :
  0 <= s < n -> 0 <= c < 10 ->
  (fst (precalc rnd sin_d cos_d M_PI n t) s c =
     Rtrunc (wave_i rnd sin_d cos_d M_PI n s c) /\
   Z.abs (fst (precalc rnd sin_d cos_d M_PI n t) s c) <= 127) /\
  (snd (precalc rnd sin_d cos_d M_PI n t) s c =
     Rtrunc (wave_q rnd cos_d M_PI n s c) /\
   Z.abs (snd (precalc rnd sin_d cos_d M_PI n t) s c) <= 127).
Proof.
  intros Hs Hc.
  destruct (precalc_lookup rnd sin_d cos_d M_PI n t s c ltac:(lia)) as [-> ->].
  assert ((0 <=? s) && (s <? n) && (0 <=? c) && (c <? 10) = true) as -> by cmp_cases.
  destruct (cast_int8_exact _ (wave_i_range n s c)) as [-> Hi].
  destruct (cast_int8_exact _ (wave_q_range n s c)) as [-> Hq].
  repeat split; assumption.
Qed.

(** C6: every cell of the four tables is within [-127, 127], and the
    conversion to [int8_t] that stored it did not wrap: the cell is the
    integer part of the [double] that was converted. *)
Theorem stored_samples_bounded s c :
  0 <= c < 10 ->
  (0 <= s < 6666 ->
     Z.abs (mi rnd sin_d cos_d M_PI s c) <= 127 /\
     Z.abs (mq rnd sin_d cos_d M_PI s c) <= 127 /\
     mi rnd sin_d cos_d M_PI s c = Rtrunc (wave_i rnd sin_d cos_d M_PI 6666 s c) /\
     mq rnd sin_d cos_d M_PI s c = Rtrunc (wave_q rnd cos_d M_PI 6666 s c)) /\
  (0 <= s < 3636 ->
     Z.abs (si rnd sin_d cos_d M_PI s c) <= 127 /\
     Z.abs (sq rnd sin_d cos_d M_PI s c) <= 127 /\
     si rnd sin_d cos_d M_PI s c = Rtrunc (wave_i rnd sin_d cos_d M_PI 3636 s c) /\
     sq rnd sin_d cos_d M_PI s c = Rtrunc (wave_q rnd cos_d M_PI 3636 s c)).
Proof.
  intros Hc. split; intros Hs.
  - destruct (precalc_cell 6666 (zero_table, zero_table) s c Hs Hc)
      as [[E1 B1] [E2 B2]].
    unfold mi, mq. repeat split; assumption.
  - destruct (precalc_cell 3636 (zero_table, zero_table) s c Hs Hc)
      as [[E1 B1] [E2 B2]].
    unfold si, sq. repeat split; assumption.
Qed.

End Bounded.

(** ** The samples in exact arithmetic *)

(** Without rounding error the phase the loops compute is the phase of the
    specification. *)
Lemma exact_phase n s c : wave_phase id cos PI n s c = Spec.phase_at n s c.
Proof.
  unfold wave_phase, carrier_angle, signal_angle, dm, tau, Spec.phase_at, id.
  replace (IZR s * (2 * PI) / IZR n)%R with (2 * PI * IZR s / IZR n)%R
    by (unfold Rdiv; ring).
  unfold Rdiv. ring.
Qed.

(** The cosine near 4/3, from its alternating series. *)
Lemma cos_near_four_thirds (a : R) :
  (13333 / 10000 <= a <= 13334 / 10000)%R ->
  (2345 / 10000 < cos a < 2358 / 10000)%R.
Proof.
  intros [Hl Hu].
  pose proof (pre_cos_bound a 1 ltac:(lra) ltac:(lra)) as [Hlo Hup].
  unfold cos_approx, cos_term in Hlo, Hup.
  cbn [sum_f_R0 Nat.mul Nat.add] in Hlo, Hup.
  replace (INR (fact 0)) with 1%R in * by (rewrite INR_IZR_INZ; reflexivity).
  replace (INR (fact 2)) with 2%R in * by (rewrite INR_IZR_INZ; reflexivity).
  replace (INR (fact 4)) with 24%R in * by (rewrite INR_IZR_INZ; reflexivity).
  replace (INR (fact 6)) with 720%R in * by (rewrite INR_IZR_INZ; reflexivity).
  replace (INR (fact 8)) with 40320%R in * by (rewrite INR_IZR_INZ; reflexivity).
  cbn [pow] in Hlo, Hup.
  set (a2 := (a * a)%R).
  assert ((13333 / 10000) ^ 2 <= a2 <= (13334 / 10000) ^ 2)%R as H2
    by (unfold a2; cbn [pow]; nra).
  set (a4 := (a2 * a2)%R).
  assert ((13333 / 10000) ^ 4 <= a4 <= (13334 / 10000) ^ 4)%R as H4
    by (unfold a4; cbn [pow] in *; nra).
  set (a6 := (a4 * a2)%R).
  assert ((13333 / 10000) ^ 6 <= a6 <= (13334 / 10000) ^ 6)%R as H6
    by (unfold a6; cbn [pow] in *; nra).
  set (a8 := (a4 * a4)%R).
  assert ((13333 / 10000) ^ 8 <= a8 <= (13334 / 10000) ^ 8)%R as H8
    by (unfold a8; cbn [pow] in *; nra).
  replace (a * (a * (a * (a * (a * (a * (a * (a * 1))))))))%R with a8 in *
    by (unfold a8, a4, a2; ring).
  replace (a * (a * (a * (a * (a * (a * 1))))))%R with a6 in *
    by (unfold a6, a4, a2; ring).
  replace (a * (a * (a * (a * 1))))%R with a4 in * by (unfold a4, a2; ring).
  replace (a * (a * 1))%R with a2 in * by (unfold a2; ring).
  cbn [pow] in H2, H4, H6, H8.
  split; lra.
Qed.

Lemma cos_four_thirds : (2345 / 10000 < cos (4 / 3) < 2358 / 10000)%R.
Proof. apply cos_near_four_thirds. lra. Qed.

(** The first Q cell of the mark table, and what its phase is. *)
Lemma first_mark_phase : Spec.phase_at 6666 0 0 = (- (4 / 3))%R.
Proof.
  unfold Spec.phase_at.
  replace (2 * PI * 0 / 6666)%R with 0%R by (unfold Rdiv; ring).
  rewrite cos_0. unfold Rdiv. ring.
Qed.

Lemma first_mark_q_value :
  (29 + 1 / 2 < 127 * cos (Spec.phase_at 6666 0 0) < 30)%R.
Proof.
  rewrite first_mark_phase, cos_neg.
  pose proof cos_four_thirds. lra.
Qed.

Lemma Rabs_le_bounds (x b : R) : (Rabs x <= b)%R -> (- b <= x <= b)%R.
Proof. unfold Rabs. destruct (Rcase_abs x); lra. Qed.

(** The same cell on any platform whose [double] arithmetic is accurate to
    one part in a million: it holds 29 there too, 29.87.. being far from an
    integer. *)
Section AccuratePlatform.

Variable rnd : R -> R.
Variables sin_d cos_d : R -> R.
Variable M_PI : R.

Hypothesis rnd_zero : rnd 0 = 0%R.
Hypothesis rnd_accurate : forall x : R,
  (1 <= Rabs x <= 128)%R -> (Rabs (rnd x - x) <= Rabs x / 1000000)%R.
Hypothesis cos_d_accurate : forall x : R,
  (Rabs x <= 2)%R -> (Rabs (cos_d x - cos x) <= 1 / 1000000)%R.

Lemma rnd_near (x : R) :
  (1 <= x <= 128)%R -> (x - x / 1000000 <= rnd x <= x + x / 1000000)%R.
Proof.
  intros Hx. pose proof (rnd_accurate x) as H.
  rewrite (Rabs_pos_eq x) in H by lra.
  specialize (H Hx). apply Rabs_le_bounds in H. lra.
Qed.

Lemma cos_d_near (x : R) :
  (-2 <= x <= 2)%R -> (cos x - 1 / 1000000 <= cos_d x <= cos x + 1 / 1000000)%R.
Proof.
  intros Hx. pose proof (cos_d_accurate x) as H.
  assert (Rabs x <= 2)%R as Ha by (apply Rabs_le; lra).
  specialize (H Ha). apply Rabs_le_bounds in H. lra.
Qed.

Lemma first_mark_phase_on_platform :
  (13333 / 10000 <= - wave_phase rnd cos_d M_PI 6666 0 0 <= 13334 / 10000)%R.
Proof.
  unfold wave_phase, carrier_angle, signal_angle.
  rewrite !Rmult_0_l, rnd_zero.
  replace (0 / 10)%R with 0%R by lra. replace (0 / 6666)%R with 0%R by lra.
  rewrite rnd_zero.
  pose proof (cos_d_near 0 ltac:(lra)) as Hk. rewrite cos_0 in Hk.
  pose proof (rnd_near (4 / 3) ltac:(lra)) as Hd. unfold dm.
  set (k := cos_d 0) in *. set (d := rnd (4 / 3)) in *.
  assert (133333 / 100000 <= d * k <= 133334 / 100000)%R as Hp.
  { assert (0 <= (d - 1333332 / 1000000) * (k - 999999 / 1000000))%R
      by (apply Rmult_le_pos; lra).
    assert (0 <= (1333335 / 1000000 - d) * (1000001 / 1000000 - k))%R
      by (apply Rmult_le_pos; lra).
    nra. }
  pose proof (rnd_near (d * k) ltac:(lra)) as Hr.
  set (p := rnd (d * k)) in *.
  replace (0 - p)%R with (- p)%R by ring.
  pose proof (rnd_accurate (- p)) as Hn.
  rewrite Rabs_Ropp, (Rabs_pos_eq p) in Hn by lra.
  specialize (Hn ltac:(lra)). apply Rabs_le_bounds in Hn. lra.
Qed.

Lemma first_mark_q_on_platform : mq rnd sin_d cos_d M_PI 0 0 = 29.
Proof.
  unfold mq.
  destruct (precalc_lookup rnd sin_d cos_d M_PI 6666 (zero_table, zero_table)
              0 0 ltac:(lia)) as [_ ->].
  change ((0 <=? 0) && (0 <? 6666) && (0 <=? 0) && (0 <? 10)) with true.
  cbv iota. unfold wave_q.
  pose proof first_mark_phase_on_platform as Ha.
  set (ph := wave_phase rnd cos_d M_PI 6666 0 0) in *.
  pose proof (cos_near_four_thirds (- ph) Ha) as Hc. rewrite cos_neg in Hc.
  pose proof (cos_d_near ph ltac:(lra)) as Hk.
  set (k := cos_d ph) in *.
  pose proof (rnd_near (127 * k) ltac:(lra)) as Hv.
  set (v := rnd (127 * k)) in *.
  assert (29 <= v < 29 + 1)%R as Hb by lra.
  unfold cast_int8, Rtrunc. destruct (Rle_dec 0 v) as [_|Hneg]; [|lra].
  rewrite (Zfloor_eq 29 v Hb). reflexivity.
Qed.

End AccuratePlatform.

(** Exact arithmetic is such a platform. *)
Example first_mark_q_exact : Exact.mq 0 0 = 29.
Proof.
  apply first_mark_q_on_platform.
  - reflexivity.
  - intros x _. unfold id. rewrite Rminus_diag, Rabs_R0.
    pose proof (Rabs_pos x). lra.
  - intros x _. rewrite Rminus_diag, Rabs_R0. lra.
Qed.

(** C3 fails at the first cell of [mq]: [127 * cos (- 4/3)] is 29.87..,
    the cell holds 29 and the nearest integer is 30. *)
Lemma first_mark_q_not_rounded :
  Exact.mq 0 0 = 29 /\ Spec.sample_q 6666 0 0 = 30 /\
  Exact.mq 0 0 <> Spec.sample_q 6666 0 0.
Proof.
  pose proof first_mark_q_value as Hv.
  pose proof first_mark_q_exact as E1.
  assert (Spec.sample_q 6666 0 0 = 30) as E2.
  { unfold Spec.sample_q, Spec.round_nearest. apply Zfloor_eq. lra. }
  rewrite E1, E2. repeat split. lia.
Qed.

(** ** The samples in double arithmetic *)

Lemma Rabs_sin_le (t : R) : (Rabs (sin t) <= Rabs t)%R.
Proof.
  assert (forall u : R, (0 < u -> Rabs (sin u) <= u)%R) as Hpos.
  { intros u Hu. apply Rabs_le. split.
    - destruct (Rle_dec u 1) as [H1|H1].
      + pose proof (sin_ge_0 u ltac:(lra) ltac:(pose proof PI2_1; lra)). lra.
      + pose proof (SIN_bound u). lra.
    - pose proof (sin_lt_x u Hu). lra. }
  destruct (Rtotal_order t 0) as [Hn|[->|Hp]].
  - rewrite <- (Rabs_Ropp (sin t)), <- sin_neg, (Rabs_left t Hn).
    apply Hpos. lra.
  - rewrite sin_0, Rabs_R0. lra.
  - rewrite (Rabs_pos_eq t) by lra. apply Hpos. exact Hp.
Qed.

Lemma sin_lipschitz (p q : R) : (Rabs (sin p - sin q) <= Rabs (p - q))%R.
Proof.
  rewrite form4, !Rabs_mult.
  pose proof (COS_bound ((p + q) / 2)) as Hc.
  assert (Rabs (cos ((p + q) / 2)) <= 1)%R as Hc1 by (apply Rabs_le; lra).
  pose proof (Rabs_sin_le ((p - q) / 2)) as Hs.
  pose proof (Rabs_pos (sin ((p - q) / 2))) as Hs0.
  pose proof (Rabs_pos (cos ((p + q) / 2))) as Hc0.
  replace (Rabs ((p - q) / 2)) with (Rabs (p - q) / 2)%R in Hs.
  2: { unfold Rdiv. rewrite Rabs_mult, (Rabs_pos_eq (/ 2)) by lra. reflexivity. }
  rewrite (Rabs_pos_eq 2) by lra. nra.
Qed.

Lemma cos_lipschitz (p q : R) : (Rabs (cos p - cos q) <= Rabs (p - q))%R.
Proof.
  rewrite form2, !Rabs_mult.
  pose proof (SIN_bound ((p + q) / 2)) as Hc.
  assert (Rabs (sin ((p + q) / 2)) <= 1)%R as Hc1 by (apply Rabs_le; lra).
  pose proof (Rabs_sin_le ((p - q) / 2)) as Hs.
  pose proof (Rabs_pos (sin ((p - q) / 2))) as Hs0.
  pose proof (Rabs_pos (sin ((p + q) / 2))) as Hc0.
  replace (Rabs ((p - q) / 2)) with (Rabs (p - q) / 2)%R in Hs.
  2: { unfold Rdiv. rewrite Rabs_mult, (Rabs_pos_eq (/ 2)) by lra. reflexivity. }
  rewrite (Rabs_left (-2)) by lra. nra.
Qed.

(** Truncation does not see an error smaller than the distance to the
    nearest integer. *)
Lemma Rtrunc_stable (v x d : R) :
  (Rabs (v - x) <= d)%R -> off_integers d x -> Rtrunc v = Rtrunc x.
Proof.
  intros Hv Hoff. apply Rabs_le_bounds in Hv.
  assert (forall k : Z, (IZR k <= x -> IZR k + d < x)%R) as Hup.
  { intros k Hk. specialize (Hoff k). rewrite Rabs_pos_eq in Hoff by lra. lra. }
  assert (forall k : Z, (x <= IZR k -> x < IZR k - d)%R) as Hdown.
  { intros k Hk. specialize (Hoff k). rewrite Rabs_left1 in Hoff by lra. lra. }
  assert (0 <= d)%R as Hd.
  { specialize (Hoff 0). pose proof (Rabs_pos (v - x)).
    unfold Rabs in *. destruct (Rcase_abs (v - x)); lra. }
  unfold Rtrunc.
  destruct (Rle_dec 0 x) as [Hx|Hx].
  - pose proof (Hup 0 Hx) as H0.
    destruct (Rle_dec 0 v) as [_|Hn]; [|lra].
    pose proof (Zfloor_bound x) as [Hl Hu].
    pose proof (Hup _ Hl).
    assert (x < IZR (Zfloor x + 1) - d)%R
      by (apply Hdown; rewrite plus_IZR; lra).
    rewrite plus_IZR in *. apply Zfloor_eq. lra.
  - pose proof (Hdown 0 ltac:(lra)) as H0.
    destruct (Rle_dec 0 v) as [Hn|_]; [lra|].
    pose proof (Zceil_bound x) as [Hl Hu].
    pose proof (Hdown _ Hu).
    assert (IZR (Zceil x - 1) + d < x)%R
      by (apply Hup; rewrite minus_IZR; lra).
    rewrite minus_IZR in *. apply Zceil_eq. lra.
Qed.

Section DoublePlatform.

Variable rnd : R -> R.
Variables sin_d cos_d : R -> R.
Variable M_PI : R.

(** What is asked of the platform, and what IEEE [double]s and the C library
    give with room to spare: an operation whose exact result is within
    [-65536, 65536] is off by [10^-9] at most, and so are the library sine
    and cosine and the constant [M_PI]. *)
Hypothesis rnd_precise : forall x : R,
  (Rabs x <= 65536)%R -> (Rabs (rnd x - x) <= 1 / 1000000000)%R.
Hypothesis sin_d_precise : forall x : R,
  (Rabs (sin_d x - sin x) <= 1 / 1000000000)%R.
Hypothesis cos_d_precise : forall x : R,
  (Rabs (cos_d x - cos x) <= 1 / 1000000000)%R.
Hypothesis M_PI_precise : (Rabs (M_PI - PI) <= 1 / 1000000000)%R.

Lemma rnd_within (x lo hi : R) :
  (-65536 <= lo)%R -> (hi <= 65536)%R -> (lo <= x <= hi)%R ->
  (x - 1 / 1000000000 <= rnd x <= x + 1 / 1000000000)%R.
Proof.
  intros Hlo Hhi Hx.
  pose proof (rnd_precise x ltac:(apply Rabs_le; lra)) as H.
  apply Rabs_le_bounds in H. lra.
Qed.

Lemma tau_precise :
  (2 * PI - 3 / 1000000000 <= tau rnd M_PI <= 2 * PI + 3 / 1000000000)%R.
Proof.
  pose proof PI2_3_2. pose proof PI_4.
  pose proof (Rabs_le_bounds _ _ M_PI_precise) as Hpi.
  pose proof (rnd_within (2 * M_PI) (-9) 9 ltac:(lra) ltac:(lra) ltac:(lra)).
  unfold tau. lra.
Qed.

(** [k * tau / n.0] for [0 <= k < n <= 6666]: the signal angle and the
    carrier angle. *)
Lemma angle_precise (n k : Z) :
  0 <= k < n -> n <= 6666 ->
  (Rabs (rnd (rnd (IZR k * tau rnd M_PI) / IZR n) - 2 * PI * IZR k / IZR n)
   <= 5 / 1000000000)%R.
Proof.
  intros Hk Hn.
  pose proof PI2_3_2. pose proof PI_4. pose proof tau_precise as Ht.
  set (t := tau rnd M_PI) in *.
  assert (0 <= IZR k)%R as HK0 by (apply IZR_le; lia).
  assert (IZR k + 1 <= IZR n)%R as HKN by (rewrite <- plus_IZR; apply IZR_le; lia).
  assert (IZR n <= 6666)%R as HN by (apply IZR_le; lia).
  set (K := IZR k) in *. set (N := IZR n) in *.
  assert (0 < / N)%R as Hr0 by (apply Rinv_0_lt_compat; lra).
  assert (N * / N = 1)%R as Hr1 by (apply Rinv_r; lra).
  set (r := (/ N)%R) in *.
  assert (r <= 1)%R as Hr by nra.
  assert (0 <= K * r <= 1)%R as HKr by nra.
  assert (0 <= K * t <= 6666 * 9)%R as Hx1.
  { split; [apply Rmult_le_pos; lra|].
    apply Rmult_le_compat; lra. }
  pose proof (rnd_within (K * t) 0 (6666 * 9) ltac:(lra) ltac:(lra) Hx1) as Ha1.
  set (a1 := rnd (K * t)) in *.
  assert (K * (2 * PI) - K * (3 / 1000000000) <= K * t
          <= K * (2 * PI) + K * (3 / 1000000000))%R as Hkt by nra.
  assert (2 * PI * K * r - 4 / 1000000000 <= a1 * r
          <= 2 * PI * K * r + 4 / 1000000000)%R as Hq.
  { assert (a1 * r <= (K * (2 * PI) + K * (3 / 1000000000) + 1 / 1000000000) * r)%R
      by (apply Rmult_le_compat_r; lra).
    assert ((K * (2 * PI) - K * (3 / 1000000000) - 1 / 1000000000) * r <= a1 * r)%R
      by (apply Rmult_le_compat_r; lra).
    nra. }
  assert (0 <= 2 * PI * K * r <= 8)%R as Hang by nra.
  pose proof (rnd_within (a1 * r) (-1) 9 ltac:(lra) ltac:(lra) ltac:(lra)) as Ha2.
  unfold Rdiv. fold r. apply Rabs_le. lra.
Qed.

Lemma phase_precise (n s c : Z) :
  0 <= s < n -> n <= 6666 -> 0 <= c < 10 ->
  (Rabs (wave_phase rnd cos_d M_PI n s c - Spec.phase_at n s c)
   <= 2 / 100000000)%R.
Proof.
  intros Hs Hn Hc.
  pose proof PI2_3_2. pose proof PI_4.
  pose proof (angle_precise n s Hs Hn) as Hsa. apply Rabs_le_bounds in Hsa.
  pose proof (angle_precise 10 c Hc ltac:(lia)) as Hca. apply Rabs_le_bounds in Hca.
  unfold wave_phase, Spec.phase_at, carrier_angle, signal_angle.
  set (sa := rnd (rnd (IZR s * tau rnd M_PI) / IZR n)) in *.
  set (ca := rnd (rnd (IZR c * tau rnd M_PI) / 10)) in *.
  set (A := (2 * PI * IZR s / IZR n)%R) in *.
  set (C := (2 * PI * IZR c / 10)%R) in *.
  assert (0 <= C <= 8)%R as HC.
  { assert (0 <= IZR c <= 9)%R by (split; apply IZR_le; lia). unfold C. nra. }
  pose proof (cos_lipschitz sa A) as Hl. apply Rabs_le_bounds in Hl.
  assert (Rabs (sa - A) <= 5 / 1000000000)%R as Hsa' by (apply Rabs_le; lra).
  pose proof (Rabs_le_bounds _ _ (cos_d_precise sa)) as Hcd.
  pose proof (COS_bound A) as HcA.
  set (k := cos_d sa) in *. set (kA := cos A) in *.
  assert (kA - 6 / 1000000000 <= k <= kA + 6 / 1000000000)%R as Hk by lra.
  pose proof (rnd_within (4 / 3) 1 2 ltac:(lra) ltac:(lra) ltac:(lra)) as Hd.
  unfold dm. set (d := rnd (4 / 3)) in *.
  assert (4 / 3 * kA - 1 / 100000000 <= d * k <= 4 / 3 * kA + 1 / 100000000)%R as Hy.
  { assert (d * k - 4 / 3 * kA = (d - 4 / 3) * k + 4 / 3 * (k - kA))%R as E by ring.
    assert (-2 <= k <= 2)%R by lra.
    assert (- (2 / 1000000000) <= (d - 4 / 3) * k <= 2 / 1000000000)%R by nra.
    lra. }
  pose proof (rnd_within (d * k) (-2) 2 ltac:(lra) ltac:(lra) ltac:(lra)) as Hy'.
  set (y := rnd (d * k)) in *.
  pose proof (rnd_within (ca - y) (-3) 11 ltac:(lra) ltac:(lra) ltac:(lra)) as Hp.
  apply Rabs_le. lra.
Qed.

Lemma scaled_precise (f_d f : R -> R) (p q : R) :
  (forall x, Rabs (f_d x - f x) <= 1 / 1000000000)%R ->
  (forall x y, Rabs (f x - f y) <= Rabs (x - y))%R ->
  (forall x, -1 <= f x <= 1)%R ->
  (Rabs (p - q) <= 2 / 100000000)%R ->
  (Rabs (rnd (127 * f_d p) - 127 * f q) <= 1 / 100000)%R.
Proof.
  intros Hfd Hlip Hb Hpq.
  pose proof (Rabs_le_bounds _ _ (Hfd p)) as H1.
  pose proof (Hlip p q) as H2. apply Rabs_le_bounds in H2.
  pose proof (Hb q) as H3.
  pose proof (rnd_within (127 * f_d p) (-128) 128 ltac:(lra) ltac:(lra) ltac:(lra)) as H4.
  apply Rabs_le. lra.
Qed.


(** The cells of a filled table on such a platform. *)
Lemma precise_cell n t s c :
  0 <= s < n -> n <= 6666 -> 0 <= c < 10 ->
  (fst (precalc rnd sin_d cos_d M_PI n t) s c =
     Rtrunc (wave_i rnd sin_d cos_d M_PI n s c) /\
   (Rabs (wave_i rnd sin_d cos_d M_PI n s c - 127 * sin (Spec.phase_at n s c))
    <= 1 / 100000)%R) /\
  (snd (precalc rnd sin_d cos_d M_PI n t) s c =
     Rtrunc (wave_q rnd cos_d M_PI n s c) /\
   (Rabs (wave_q rnd cos_d M_PI n s c - 127 * cos (Spec.phase_at n s c))
    <= 1 / 100000)%R).
Proof.
  intros Hs Hn Hc.
  destruct (precalc_lookup rnd sin_d cos_d M_PI n t s c ltac:(lia)) as [-> ->].
  assert ((0 <=? s) && (s <? n) && (0 <=? c) && (c <? 10) = true) as -> by cmp_cases.
  pose proof (phase_precise n s c Hs Hn Hc) as Hp.
  pose proof (scaled_precise sin_d sin _ _ sin_d_precise sin_lipschitz SIN_bound Hp) as Hi.
  pose proof (scaled_precise cos_d cos _ _ cos_d_precise cos_lipschitz COS_bound Hp) as Hq.
  fold (wave_i rnd sin_d cos_d M_PI n s c) in Hi.
  fold (wave_q rnd cos_d M_PI n s c) in Hq.
  assert (forall v x : R, (-1 <= x <= 1)%R ->
            (Rabs (v - 127 * x) <= 1 / 100000)%R -> cast_int8 v = Rtrunc v) as Hcast.
  { intros v x Hx Hv. apply Rabs_le_bounds in Hv.
    destruct (Rtrunc_toward_zero v) as [Hle _].
    assert (Rabs v < 128)%R as Hv128 by (apply Rabs_def1; lra).
    assert (Rabs (IZR (Rtrunc v)) < 128)%R as Ht by lra.
    apply Rabs_def2 in Ht. destruct Ht as [Ht1 Ht2].
    unfold cast_int8. apply to_int8_small.
    split; [|apply lt_IZR; exact Ht1].
    assert (-128 < Rtrunc v); [apply lt_IZR; exact Ht2|lia]. }
  rewrite (Hcast _ _ (SIN_bound _) Hi), (Hcast _ _ (COS_bound _) Hq).
  repeat split; assumption.
Qed.

(** C3, as the code has it: every cell of the four tables is the [double]
    the program computes for [127 * sin] or [127 * cos] of the phase, with
    its fractional part dropped.  The conversion rounds toward zero, not to
    the nearest integer.  That [double] is within [10^-5] of the exact
    value, so the cell is the exact value truncated whenever the exact value
    is farther than [10^-5] from every integer. *)
Theorem stored_samples_truncated s c :
  0 <= c < 10 ->
  (0 <= s < 6666 ->
     let x_i := (127 * sin (Spec.phase_at 6666 s c))%R in
     let x_q := (127 * cos (Spec.phase_at 6666 s c))%R in
     mi rnd sin_d cos_d M_PI s c = Rtrunc (wave_i rnd sin_d cos_d M_PI 6666 s c) /\
     mq rnd sin_d cos_d M_PI s c = Rtrunc (wave_q rnd cos_d M_PI 6666 s c) /\
     (Rabs (wave_i rnd sin_d cos_d M_PI 6666 s c - x_i) <= 1 / 100000)%R /\
     (Rabs (wave_q rnd cos_d M_PI 6666 s c - x_q) <= 1 / 100000)%R /\
     (off_integers (1 / 100000) x_i -> mi rnd sin_d cos_d M_PI s c = Rtrunc x_i) /\
     (off_integers (1 / 100000) x_q -> mq rnd sin_d cos_d M_PI s c = Rtrunc x_q)) /\
  (0 <= s < 3636 ->
     let x_i := (127 * sin (Spec.phase_at 3636 s c))%R in
     let x_q := (127 * cos (Spec.phase_at 3636 s c))%R in
     si rnd sin_d cos_d M_PI s c = Rtrunc (wave_i rnd sin_d cos_d M_PI 3636 s c) /\
     sq rnd sin_d cos_d M_PI s c = Rtrunc (wave_q rnd cos_d M_PI 3636 s c) /\
     (Rabs (wave_i rnd sin_d cos_d M_PI 3636 s c - x_i) <= 1 / 100000)%R /\
     (Rabs (wave_q rnd cos_d M_PI 3636 s c - x_q) <= 1 / 100000)%R /\
     (off_integers (1 / 100000) x_i -> si rnd sin_d cos_d M_PI s c = Rtrunc x_i) /\
     (off_integers (1 / 100000) x_q -> sq rnd sin_d cos_d M_PI s c = Rtrunc x_q)).
Proof.
  intros Hc. split; intros Hs x_i x_q.
  - destruct (precise_cell 6666 (zero_table, zero_table) s c Hs ltac:(lia) Hc)
      as [[Ei Hi] [Eq Hq]].
    unfold mi, mq. rewrite Ei, Eq.
    repeat split; try assumption; intros Hoff;
      apply (Rtrunc_stable _ _ (1 / 100000)); assumption.
  - destruct (precise_cell 3636 (zero_table, zero_table) s c Hs ltac:(lia) Hc)
      as [[Ei Hi] [Eq Hq]].
    unfold si, sq. rewrite Ei, Eq.
    repeat split; try assumption; intros Hoff;
      apply (Rtrunc_stable _ _ (1 / 100000)); assumption.
Qed.

End DoublePlatform.


(** ** Determinism *)

(** C9: the bytes and the globals a call leaves depend on the globals and
    on the length only.  Two calls from the same globals with the same
    length, whatever the buffers held before and whatever fuel each is
    given, return the same status, leave the same globals and the same
    [len] bytes, and the same transfer when the buffers were the same.  Two
    runs of the table loops fill the cells of [t[n][10]] alike, whatever
    the tables held before. *)
Theorem generator_deterministic (mi mq si sq : Z -> Z -> Z)
    (rnd sin_d cos_d : R -> R) (M_PI : R)
    (fuel1 fuel2 : nat) (buf1 buf2 : gmap Z Z) (len : Z) (st : phase)
    (n : Z) (t1 t2 : (Z -> Z -> Z) * (Z -> Z -> Z)) :
  0 <= len <= INT_MAX -> (turns len <= fuel1)%nat -> (turns len <= fuel2)%nat ->
  0 <= n ->
  (exists tr1 tr2 st',
     tx_callback mi mq si sq fuel1 (Transfer buf1 len) st = Some (0, tr1, st') /\
     tx_callback mi mq si sq fuel2 (Transfer buf2 len) st = Some (0, tr2, st') /\
     (forall x, 0 <= x < len -> buffer tr1 !! x = buffer tr2 !! x) /\
     (buf1 = buf2 -> tr1 = tr2)) /\
  same_cells n (fst (precalc rnd sin_d cos_d M_PI n t1))
               (fst (precalc rnd sin_d cos_d M_PI n t2)) /\
  same_cells n (snd (precalc rnd sin_d cos_d M_PI n t1))
               (snd (precalc rnd sin_d cos_d M_PI n t2)).
Proof.
  intros Hlen Hf1 Hf2 Hn. split.
  - eexists _, _, _.
    split; [apply tx_callback_run; assumption|].
    split; [apply tx_callback_run; assumption|].
    cbn [buffer]. split.
    + intros x Hx. pose proof (turns_bound len ltac:(lia)) as Hk.
      destruct (filled_lookup_in mi mq si sq st len buf1 x ltac:(lia))
        as (s1 & c1 & -> & -> & ->).
      destruct (filled_lookup_in mi mq si sq st len buf2 x ltac:(lia))
        as (s2 & c2 & -> & -> & ->).
      reflexivity.
    + intros ->. reflexivity.
  - split; intros s c Hs Hc.
    + destruct (precalc_lookup rnd sin_d cos_d M_PI n t1 s c Hn) as [-> _].
      destruct (precalc_lookup rnd sin_d cos_d M_PI n t2 s c Hn) as [-> _].
      cmp_cases.
    + destruct (precalc_lookup rnd sin_d cos_d M_PI n t1 s c Hn) as [_ ->].
      destruct (precalc_lookup rnd sin_d cos_d M_PI n t2 s c Hn) as [_ ->].
      cmp_cases.
Qed.

(** ** The claims at concrete inputs *)

(** C4 fails at a length of 3 bytes, with the tables of the program and
    from the state [main] sets up: four cells are written, and the last
    one, at index 3, is the Q sample [sq[1][1]]. *)
Lemma odd_length_not_truncated :
  exists tr' st',
    tx_callback Exact.mi Exact.mq Exact.si Exact.sq 2 (Transfer ∅ 3) main_init =
      Some (0, tr', st') /\
    buffer tr' !! 2 = Some (to_uint8 (Exact.si 1 1)) /\
    buffer tr' !! 3 = Some (to_uint8 (Exact.sq 1 1)) /\
    size (buffer tr') = 4%nat /\
    size (buffer tr') <> 3%nat.
Proof.
  generalize Exact.mi Exact.mq Exact.si Exact.sq. intros mi mq si sq.
  eexists _, _. split; [reflexivity|].
  cbn [buffer]. repeat split; try reflexivity.
  vm_compute. discriminate.
Qed.

Lemma inactive_offset_translation_witness :
  exists tr' st',
    tx_callback zero_table zero_table zero_table zero_table 2
      (Transfer ∅ 4) mark_state = Some (0, tr', st') /\
    mo st' = (6665 + 2) mod 6666 /\ so st' = 3636 * mo st' / 6666.
Proof.
  destruct (inactive_offset_translation zero_table zero_table zero_table
              zero_table 2 ∅ 4 mark_state) as (tr' & st' & E & Hmark & _).
  - unfold offsets_in_range. simpl. lia.
  - unfold INT_MAX. lia.
  - vm_compute. lia.
  - exists tr', st'. split; [exact E|]. apply Hmark. reflexivity.
Defined.

Lemma exact_is_close (f : R -> R) (x : R) (e : R) :
  (0 <= e)%R -> (Rabs (f x - f x) <= e)%R.
Proof. intros He. rewrite Rminus_diag, Rabs_R0. exact He. Qed.

(** The first Q cell of the mark table is far from the integers. *)
Lemma first_mark_q_off_integers :
  off_integers (1 / 100000) (127 * cos (Spec.phase_at 6666 0 0)).
Proof.
  intros k. rewrite first_mark_phase, cos_neg.
  pose proof cos_four_thirds as Hc.
  destruct (Z_le_gt_dec k 29) as [Hk|Hk].
  - apply IZR_le in Hk. rewrite Rabs_pos_eq by lra. lra.
  - assert (30 <= k) as Hk' by lia. apply IZR_le in Hk'.
    rewrite Rabs_left1 by lra. lra.
Qed.

Lemma stored_samples_truncated_witness :
  Exact.mq 0 0 = Rtrunc (127 * cos (Spec.phase_at 6666 0 0)).
Proof.
  destruct (stored_samples_truncated id sin cos PI
              (fun x _ => exact_is_close id x (1 / 1000000000) ltac:(lra))
              (fun x => exact_is_close sin x (1 / 1000000000) ltac:(lra))
              (fun x => exact_is_close cos x (1 / 1000000000) ltac:(lra))
              (exact_is_close (fun _ => PI) 0 (1 / 1000000000) ltac:(lra))
              0 0) as [Hmark _].
  - lia.
  - destruct Hmark as (_ & _ & _ & _ & _ & Hq); [lia|].
    apply Hq. exact first_mark_q_off_integers.
Defined.

Lemma odd_length_writes_whole_pair_witness :
  exists tr' st',
    tx_callback zero_table zero_table zero_table zero_table 2
      (Transfer ∅ 3) main_init = Some (0, tr', st') /\
    is_Some (buffer tr' !! 3) /\ buffer tr' !! 4 = None.
Proof.
  destruct (odd_length_writes_whole_pair zero_table zero_table zero_table
              zero_table 2 ∅ 3 main_init) as (tr' & st' & E & Hin & Hout & _).
  - unfold INT_MAX. lia.
  - reflexivity.
  - vm_compute. lia.
  - exists tr', st'. split; [exact E|]. split.
    + apply Hin. lia.
    + rewrite Hout by lia. reflexivity.
Defined.

Lemma offsets_stay_in_range_witness :
  exists tr' st',
    tx_callback zero_table zero_table zero_table zero_table 2
      (Transfer ∅ 4) mark_state = Some (0, tr', st') /\
    offsets_in_range st'.
Proof.
  destruct (offsets_stay_in_range zero_table zero_table zero_table
              zero_table 2 ∅ 4 mark_state) as (tr' & st' & E & Hr & _).
  - unfold offsets_in_range. simpl. lia.
  - unfold INT_MAX. lia.
  - vm_compute. lia.
  - exists tr', st'. split; [exact E|exact Hr].
Defined.

Lemma stored_samples_bounded_witness :
  Z.abs (Exact.mi 0 0) <= 127 /\ Z.abs (Exact.mq 0 0) <= 127.
Proof.
  destruct (stored_samples_bounded id sin cos PI (fun x y H => H) eq_refl eq_refl
              SIN_bound COS_bound 0 0) as [Hmark _].
  - lia.
  - destruct Hmark as (Hi & Hq & _); [lia|]. split; [exact Hi|exact Hq].
Defined.

Lemma tx_callback_status_witness :
  exists tr' st',
    tx_callback zero_table zero_table zero_table zero_table 2
      (Transfer ∅ 3) mark_state = Some (0, tr', st').
Proof.
  destruct (tx_callback_status zero_table zero_table zero_table zero_table
              (Transfer ∅ 3) mark_state) as [Hret _].
  - unfold INT_MAX. simpl. lia.
  - exact Hret.
Defined.

Lemma fixed_tone_period_witness :
  exists tr' st',
    tx_callback zero_table zero_table zero_table zero_table (turns 133320)
      (Transfer ∅ 133320) mark_state = Some (0, tr', st') /\
    co st' = 7 /\ mo st' = 6665.
Proof.
  destruct (fixed_tone_period zero_table zero_table zero_table zero_table
              (turns 133320) ∅ 133320 mark_state) as (tr' & st' & E & _ & Hback).
  - unfold offsets_in_range. simpl. lia.
  - unfold INT_MAX. lia.
  - reflexivity.
  - exists tr', st'. split; [exact E|]. apply Hback. reflexivity.
Defined.

Lemma generator_deterministic_witness :
  exists tr1 tr2 st',
    tx_callback zero_table zero_table zero_table zero_table 2
      (Transfer ∅ 4) main_init = Some (0, tr1, st') /\
    tx_callback zero_table zero_table zero_table zero_table 5
      (Transfer (<[0 := 9]> ∅) 4) main_init = Some (0, tr2, st') /\
    buffer tr1 !! 0 = buffer tr2 !! 0.
Proof.
  destruct (generator_deterministic zero_table zero_table zero_table zero_table
              id sin cos PI 2 5 ∅ (<[0 := 9]> ∅) 4 main_init
              6666 (zero_table, zero_table) (zero_table, zero_table))
    as [(tr1 & tr2 & st' & E1 & E2 & Hsame & _) _].
  - unfold INT_MAX. lia.
  - vm_compute. lia.
  - vm_compute. lia.
  - lia.
  - exists tr1, tr2, st'. split; [exact E1|]. split; [exact E2|].
    apply Hsame. lia.
Defined.

Lemma tone_flips_once_witness :
  exists tr' st',
    tx_callback zero_table zero_table zero_table zero_table (turns 16000000)
      (Transfer ∅ 16000000) main_init = Some (0, tr', st') /\
    ms st' = true /\ sr <= sn st'.
Proof.
  destruct (tone_flips_once zero_table zero_table zero_table zero_table
              (turns 16000000) ∅ 16000000 main_init)
    as (tr' & st' & E & _ & _ & Htwice).
  - unfold INT_MAX. lia.
  - simpl. lia.
  - reflexivity.
  - exists tr', st'. split; [exact E|]. apply Htwice. unfold sr. simpl. lia.
Defined.

(** * Further properties of the callback *)

Lemma turns_mono (a b : Z) : a <= b -> (turns a <= turns b)%nat.
Proof.
  intros H. unfold turns.
  assert ((a + 1) / 2 <= (b + 1) / 2) by (apply Z.div_le_mono; lia). lia.
Qed.

Lemma turns_split (a b : Z) :
  0 <= a -> 0 <= b -> Z.even a = true ->
  turns (a + b) = (turns b + turns a)%nat.
Proof.
  intros Ha Hb He. unfold turns.
  pose proof (Z.div_mod a 2 ltac:(lia)) as Hd. rewrite Zmod_even, He in Hd.
  replace (a + b + 1) with (b + 1 + a / 2 * 2) by lia.
  rewrite Z.div_add by lia.
  replace (a + 1) with (1 + a / 2 * 2) by lia.
  rewrite (Z.div_add 1) by lia. change (1 / 2) with 0.
  assert (0 <= (b + 1) / 2) by (apply Z.div_pos; lia).
  assert (0 <= a / 2) by (apply Z.div_pos; lia).
  rewrite Z2Nat.inj_add by lia. reflexivity.
Qed.

(** Two calls in a row leave the globals one call for both lengths leaves,
    when the first length is even and does not reach the second boundary. *)
Lemma advance_split st len1 len2 :
  0 <= len1 -> 0 <= len2 -> Z.even len1 = true ->
  0 <= sn st -> sn st + len1 < sr ->
  advance (advance st len1) len2 = advance st (len1 + len2).
Proof.
  intros H1 H2 He Hsn Hlt. unfold sr in Hlt.
  unfold advance at 2.
  rewrite (to_long_small (sn st + len1))
    by (change (2 ^ 63) with 9223372036854775808; lia).
  destruct (sr <=? sn st + len1) eqn:E; [unfold sr in E; lia|].
  unfold advance. cbn [co mo so sn ms].
  rewrite (turns_split len1 len2) by assumption.
  rewrite !Nat.iter_add, Z.add_assoc.
  destruct (ms st); reflexivity.
Qed.

Section DriverFacts.

Variables mi mq si sq : Z -> Z -> Z.

Local Abbreviation call := (tx_callback mi mq si sq).

(** X1: a transfer cut in two gives the same signal.  When the first part has
    an even length and ends before the sample number reaches [sr], the two
    calls write the bytes the one call for the whole length writes, and
    leave the same globals. *)
Theorem split_transfer fuel buf1 buf2 buf len1 len2 st :
  0 <= len1 -> 0 <= len2 -> len1 + len2 <= INT_MAX -> Z.even len1 = true ->
  0 <= sn st -> sn st + len1 < sr -> (turns (len1 + len2) <= fuel)%nat ->
  exists tr1 st1 tr2 st2 tr,
    call fuel (Transfer buf1 len1) st = Some (0, tr1, st1) /\
    call fuel (Transfer buf2 len2) st1 = Some (0, tr2, st2) /\
    call fuel (Transfer buf (len1 + len2)) st = Some (0, tr, st2) /\
    (forall x, 0 <= x < len1 -> buffer tr !! x = buffer tr1 !! x) /\
    (forall x, 0 <= x < len2 -> buffer tr !! (len1 + x) = buffer tr2 !! x).
Proof.
  intros H1 H2 Hmax He Hsn Hlt Hfuel.
  pose proof (turns_mono len1 (len1 + len2) ltac:(lia)) as Hf1.
  pose proof (turns_mono len2 (len1 + len2) ltac:(lia)) as Hf2.
  eexists _, _, _, _, _.
  split; [apply tx_callback_run; lia|].
  split; [apply tx_callback_run; lia|].
  rewrite advance_split by assumption.
  split; [apply tx_callback_run; lia|].
  cbn [buffer].
  pose proof (turns_bound len1 H1) as Hk1.
  pose proof (turns_bound len2 H2) as Hk2.
  pose proof (turns_bound (len1 + len2) ltac:(lia)) as Hk.
  pose proof (turns_even len1 H1 He) as Hk1e.
  assert (ms (advance st len1) = ms st /\ co (advance st len1) =
            Nat.iter (turns len1) (incr_mod 10) (co st) /\
          (if ms st then mo (advance st len1) else so (advance st len1)) =
            Nat.iter (turns len1) (incr_mod (if ms st then 6666 else 3636))
              (if ms st then mo st else so st)) as (Ems & Eco & Eo).
  { unfold advance. unfold sr in Hlt.
    rewrite (to_long_small (sn st + len1))
      by (change (2 ^ 63) with 9223372036854775808; lia).
    destruct (sr <=? sn st + len1) eqn:E; [unfold sr in E; lia|].
    cbn [co mo so ms]. destruct (ms st); repeat split; reflexivity. }
  split.
  - intros x Hx.
    destruct (filled_lookup_in mi mq si sq st (len1 + len2) buf x ltac:(lia))
      as (s & c & -> & -> & ->).
    destruct (filled_lookup_in mi mq si sq st len1 buf1 x ltac:(lia))
      as (s' & c' & -> & -> & ->).
    reflexivity.
  - intros x Hx.
    destruct (filled_lookup_in mi mq si sq st (len1 + len2) buf (len1 + x) ltac:(lia))
      as (s & c & -> & -> & ->).
    destruct (filled_lookup_in mi mq si sq (advance st len1) len2 buf2 x ltac:(lia))
      as (s' & c' & -> & -> & ->).
    rewrite Ems, Eco.
    assert (Z.even (len1 + x) = Z.even x) as ->
      by (rewrite Z.even_add, He; destruct (Z.even x); reflexivity).
    assert (Z.to_nat ((len1 + x) / 2) = (Z.to_nat (x / 2) + turns len1)%nat) as ->.
    { pose proof (Z.div_mod len1 2 ltac:(lia)) as Hd. rewrite Zmod_even, He in Hd.
      replace (len1 + x) with (x + len1 / 2 * 2) by lia.
      rewrite Z.div_add by lia.
      assert (0 <= x / 2) by (apply Z.div_pos; lia).
      assert (0 <= len1 / 2) by (apply Z.div_pos; lia).
      rewrite Z2Nat.inj_add by lia. f_equal. lia. }
    rewrite !Nat.iter_add.
    destruct (ms st); rewrite Eo; reflexivity.
Qed.

(** One call, for a length up to [sr], from a sample number below [sr]. *)
Lemma advance_wraps st len :
  0 <= len <= sr -> 0 <= sn st < sr ->
  sn (advance st len) = (sn st + len) mod sr /\
  ms (advance st len) =
    (if Z.even ((sn st + len) / sr) then ms st else negb (ms st)).
Proof.
  intros Hlen Hsn.
  assert (0 <= len <= INT_MAX) as Hl by (unfold sr, INT_MAX in *; lia).
  assert (0 <= sn st < 2 ^ 62) as Hs
    by (unfold sr in *; change (2 ^ 62) with 4611686018427387904; lia).
  destruct (advance_sn st len Hl Hs) as [Hlt Hge].
  assert (0 < sr) as Hsr by reflexivity.
  destruct (Z_lt_le_dec (sn st + len) sr) as [H|H].
  - destruct (Hlt H) as [-> ->].
    rewrite Z.mod_small, Z.div_small by lia. split; reflexivity.
  - destruct (Hge H) as [-> ->].
    rewrite <- (Z.mod_unique_pos (sn st + len) sr 1 (sn st + len - sr)) by lia.
    rewrite <- (Z.div_unique_pos (sn st + len) sr 1 (sn st + len - sr)) by lia.
    split; reflexivity.
Qed.

(** X2: the tone follows the count of bytes without drift.  After any run of
    transfers of at most [sr] bytes each, the sample number is the total of
    the bytes modulo [sr], and the flag has been negated once for each
    multiple of [sr] the total has passed. *)
Theorem flips_follow_byte_count fuel lens st :
  Forall (fun len => 0 <= len <= sr) lens -> 0 <= sn st < sr ->
  (turns sr <= fuel)%nat ->
  exists st', calls mi mq si sq fuel lens st = Some st' /\
    sn st' = (sn st + total lens) mod sr /\
    ms st' = (if Z.even ((sn st + total lens) / sr) then ms st else negb (ms st)).
Proof.
  intros Hlens. revert st.
  assert (0 < sr) as Hsr by reflexivity.
  induction Hlens as [|len rest Hlen _ IH]; intros st Hsn Hfuel.
  - exists st. cbn [calls total fold_right]. rewrite Z.add_0_r.
    rewrite Z.mod_small, Z.div_small by lia. repeat split.
  - cbn [calls]. rewrite tx_callback_run.
    2: unfold sr, INT_MAX in *; lia.
    2: { pose proof (turns_mono len sr ltac:(lia)). lia. }
    destruct (advance_wraps st len Hlen Hsn) as [Esn Ems].
    destruct (IH (advance st len)) as (st' & E & Esn' & Ems').
    { rewrite Esn. apply Z.mod_pos_bound. lia. }
    { assumption. }
    exists st'. split; [exact E|].
    change (total (len :: rest)) with (len + total rest).
    pose proof (Z.div_mod (sn st + len) sr ltac:(lia)) as Hd.
    assert (sn st + (len + total rest) =
            (sn st + len) mod sr + total rest + (sn st + len) / sr * sr) as Hsum by lia.
    rewrite Esn', Ems', Esn, Ems, Hsum.
    rewrite Z_mod_plus_full, Z.div_add by lia.
    split; [reflexivity|].
    rewrite Z.even_add.
    destruct (Z.even (((sn st + len) mod sr + total rest) / sr)),
             (Z.even ((sn st + len) / sr)), (ms st); reflexivity.
Qed.

(** X3: the bytes of a transfer of even length are the samples in turn, I
    then Q of the same table cell: from offsets in range, the bytes [2j] and
    [2j + 1] are the I and the Q cell at row [(o + j) mod n] and column
    [(co + j) mod 10] of the table played, [o] its offset and [n] its rows;
    no cell outside [0 .. len - 1] is written. *)
Theorem interleaved_iq fuel buf len st :
  offsets_in_range st -> 0 <= len <= INT_MAX -> Z.even len = true ->
  (turns len <= fuel)%nat ->
  let n := if ms st then 6666 else 3636 in
  let o := if ms st then mo st else so st in
  exists tr' st', call fuel (Transfer buf len) st = Some (0, tr', st') /\
    (forall j, 0 <= j -> 2 * j < len ->
       buffer tr' !! (2 * j) =
         Some (to_uint8 ((if ms st then mi else si)
                           ((o + j) mod n) ((co st + j) mod 10))) /\
       buffer tr' !! (2 * j + 1) =
         Some (to_uint8 ((if ms st then mq else sq)
                           ((o + j) mod n) ((co st + j) mod 10)))) /\
    (forall x, (x < 0) \/ (len <= x) -> buffer tr' !! x = buf !! x).
Proof.
  intros Hr Hlen Hev Hfuel n o.
  eexists _, _. split; [apply tx_callback_run; assumption|].
  cbn [buffer].
  pose proof (turns_even len ltac:(lia) Hev) as Hk.
  split.
  - intros j Hj Hjl.
    assert (2 * j + 1 < len) as Hodd.
    { pose proof (Z.div_mod len 2 ltac:(lia)) as Hd.
      rewrite Zmod_even, Hev in Hd. lia. }
    rewrite !(filled_lookup_valid mi mq si sq st len buf) by (assumption || lia).
    fold n o.
    replace (Z.even (2 * j)) with true by (rewrite Z.even_mul; reflexivity).
    replace (Z.even (2 * j + 1)) with false
      by (rewrite Z.even_add, Z.even_mul; reflexivity).
    replace (2 * j / 2) with j by (rewrite Z.mul_comm, Z.div_mul; lia).
    replace ((2 * j + 1) / 2) with j.
    2: { replace (2 * j + 1) with (1 + j * 2) by lia.
         rewrite Z.div_add by lia. reflexivity. }
    split; reflexivity.
  - intros x Hx. apply filled_lookup_out. lia.
Qed.

(** X4: the tone that is not played is kept at the angle of the tone that
    is, one step of its own table at most behind: after a call that played
    mark, [so / 3636 <= mo / 6666 < (so + 1) / 3636], and after a call that
    played space, [mo / 6666 <= so / 3636 < (mo + 1) / 6666]. *)
Theorem switch_phase_error fuel buf len st :
  offsets_in_range st -> 0 <= len <= INT_MAX -> (turns len <= fuel)%nat ->
  exists tr' st', call fuel (Transfer buf len) st = Some (0, tr', st') /\
    (ms st = true ->
       6666 * so st' <= 3636 * mo st' < 6666 * (so st' + 1)) /\
    (ms st = false ->
       3636 * mo st' <= 6666 * so st' < 3636 * (mo st' + 1)).
Proof.
  intros (Hc & Hm & Hs) Hlen Hfuel.
  eexists _, _. split; [apply tx_callback_run; assumption|].
  split; intros Hms.
  - destruct (advance_mark st len Hms Hm) as [_ E].
    pose proof (Z.div_mod (3636 * mo (advance st len)) 6666 ltac:(lia)) as Hd.
    pose proof (Z.mod_pos_bound (3636 * mo (advance st len)) 6666 ltac:(lia)).
    rewrite <- E in Hd. lia.
  - destruct (advance_space st len Hms Hs) as [_ E].
    pose proof (Z.div_mod (6666 * so (advance st len)) 3636 ltac:(lia)) as Hd.
    pose proof (Z.mod_pos_bound (6666 * so (advance st len)) 3636 ltac:(lia)).
    rewrite <- E in Hd. lia.
Qed.

(** Bytes: a byte written from a table cell in [-127, 127] is never 128,
    the one [uint8_t] that reads back as -128. *)
Lemma to_uint8_not_128 (v : Z) : -127 <= v <= 127 -> to_uint8 v <> 128.
Proof.
  intros H. unfold to_uint8. change (2 ^ 8) with 256.
  destruct (Z_lt_le_dec v 0) as [Hn|Hp].
  - rewrite <- (Z.mod_unique_pos v 256 (-1) (v + 256)) by lia. lia.
  - rewrite Z.mod_small by lia. lia.
Qed.

End DriverFacts.

Section ScaledBytes.

Variable rnd : R -> R.
Variables sin_d cos_d : R -> R.
Variable M_PI : R.

Hypothesis rnd_monotone : forall x y : R, (x <= y)%R -> (rnd x <= rnd y)%R.
Hypothesis rnd_127 : rnd 127 = 127%R.
Hypothesis rnd_m127 : rnd (-127) = (-127)%R.
Hypothesis sin_d_range : forall x : R, (-1 <= sin_d x <= 1)%R.
Hypothesis cos_d_range : forall x : R, (-1 <= cos_d x <= 1)%R.

(** X5: with the tables [main] has filled, every byte of a transfer is a
    sample within [-127, 127] stored as a [uint8_t]; the byte 128, which
    reads back as -128, is never sent. *)
Theorem emitted_bytes_in_scale fuel buf len st :
  offsets_in_range st -> 0 <= len <= INT_MAX -> (turns len <= fuel)%nat ->
  exists tr' st',
    tx_callback (mi rnd sin_d cos_d M_PI) (mq rnd sin_d cos_d M_PI)
                (si rnd sin_d cos_d M_PI) (sq rnd sin_d cos_d M_PI)
                fuel (Transfer buf len) st = Some (0, tr', st') /\
    forall x, 0 <= x < len ->
      exists v, buffer tr' !! x = Some (to_uint8 v) /\
                -127 <= v <= 127 /\ to_uint8 v <> 128.
Proof.
  intros Hr Hlen Hfuel.
  eexists _, _. split; [apply tx_callback_run; assumption|].
  cbn [buffer]. intros x Hx.
  pose proof (turns_bound len ltac:(lia)) as Hk.
  rewrite filled_lookup_valid by (assumption || lia).
  eexists. split; [reflexivity|].
  assert (0 <= (co st + x / 2) mod 10 < 10) as Hcol
    by (apply Z.mod_pos_bound; lia).
  match goal with |- -127 <= ?v <= 127 /\ _ =>
    assert (Z.abs v <= 127) as Hv
  end.
  { destruct (ms st).
    - assert (0 <= (mo st + x / 2) mod 6666 < 6666) as Hrow
        by (apply Z.mod_pos_bound; lia).
      destruct (precalc_cell rnd sin_d cos_d M_PI rnd_monotone rnd_127 rnd_m127
                  sin_d_range cos_d_range 6666 (zero_table, zero_table) _ _
                  Hrow Hcol) as [[_ Hi] [_ Hq]].
      destruct (Z.even x); [exact Hi|exact Hq].
    - assert (0 <= (so st + x / 2) mod 3636 < 3636) as Hrow
        by (apply Z.mod_pos_bound; lia).
      destruct (precalc_cell rnd sin_d cos_d M_PI rnd_monotone rnd_127 rnd_m127
                  sin_d_range cos_d_range 3636 (zero_table, zero_table) _ _
                  Hrow Hcol) as [[_ Hi] [_ Hq]].
      destruct (Z.even x); [exact Hi|exact Hq]. }
  split; [lia|]. apply to_uint8_not_128. lia.
Qed.

End ScaledBytes.

(** * Further properties of the tables *)

Lemma sq_Rabs (x : R) : (Rabs x * Rabs x = x * x)%R.
Proof. unfold Rabs. destruct (Rcase_abs x); ring. Qed.

(** Two magnitudes close to the legs of a right triangle of hypotenuse 127,
    each at most 0.002 above its leg and less than 1.002 below it. *)
Lemma envelope_real (A B T U : R) :
  (0 <= A -> 0 <= B -> 0 <= T -> 0 <= U ->
   A * A + B * B = 16129 ->
   T <= A + 2 / 1000 -> U <= B + 2 / 1000 ->
   A - 1002 / 1000 < T -> B - 1002 / 1000 < U ->
   15770 < T * T + U * U < 16130)%R.
Proof.
  intros HA HB HT HU Hc HTu HUu HTl HUl.
  assert (A + B <= 180)%R as Hab.
  { pose proof (Rle_0_sqr (A - B)) as Hs. unfold Rsqr in Hs.
    destruct (Rle_dec (A + B) 180) as [|Hn]; [assumption|].
    assert (0 < (A + B - 180) * (A + B + 180))%R
      by (apply Rmult_lt_0_compat; lra).
    nra. }
  assert (A <= 127)%R as HA127.
  { destruct (Rle_dec A 127) as [|Hn]; [assumption|].
    assert (0 < (A - 127) * (A + 127))%R by (apply Rmult_lt_0_compat; lra).
    pose proof (Rle_0_sqr B) as Hs. unfold Rsqr in Hs. nra. }
  assert (B <= 127)%R as HB127.
  { destruct (Rle_dec B 127) as [|Hn]; [assumption|].
    assert (0 < (B - 127) * (B + 127))%R by (apply Rmult_lt_0_compat; lra).
    pose proof (Rle_0_sqr A) as Hs. unfold Rsqr in Hs. nra. }
  split.
  - destruct (Rle_dec (1002 / 1000) A) as [Ha|Ha];
    destruct (Rle_dec (1002 / 1000) B) as [Hb|Hb].
    + assert ((A - 1002 / 1000) * (A - 1002 / 1000) <= T * T)%R by nra.
      assert ((B - 1002 / 1000) * (B - 1002 / 1000) <= U * U)%R by nra.
      nra.
    + assert (12699 / 100 < A)%R by nra.
      assert ((A - 1002 / 1000) * (A - 1002 / 1000) <= T * T)%R by nra.
      nra.
    + assert (12699 / 100 < B)%R by nra.
      assert ((B - 1002 / 1000) * (B - 1002 / 1000) <= U * U)%R by nra.
      nra.
    + nra.
  - assert (T * T <= (A + 2 / 1000) * (A + 2 / 1000))%R by nra.
    assert (U * U <= (B + 2 / 1000) * (B + 2 / 1000))%R by nra.
    nra.
Qed.

(** What truncation does to a value [v] within [e] of [a]. *)
Lemma Rtrunc_near (v a e : R) :
  (Rabs (v - a) <= e)%R ->
  (Rabs (IZR (Rtrunc v)) <= Rabs a + e)%R /\
  (Rabs a - (1 + e) < Rabs (IZR (Rtrunc v)))%R.
Proof.
  intros H. destruct (Rtrunc_toward_zero v) as [Hle Hlt].
  pose proof (Rabs_triang_inv v a) as H1.
  pose proof (Rabs_triang_inv a v) as H2. rewrite (Rabs_minus_sym a v) in H2.
  pose proof (Rabs_triang_inv v (IZR (Rtrunc v))) as H3.
  split; lra.
Qed.

Section AccurateSamples.

Variable rnd : R -> R.
Variables sin_d cos_d : R -> R.
Variable M_PI : R.

(** What is asked of the platform: a [double] operation whose exact result
    is within [-128, 128] is off by a thousandth at most, and the library
    sine and cosine by a millionth at most. *)
Hypothesis rnd_close : forall x : R,
  (Rabs x <= 128)%R -> (Rabs (rnd x - x) <= 1 / 1000)%R.
Hypothesis sin_d_close : forall x : R, (Rabs (sin_d x - sin x) <= 1 / 1000000)%R.
Hypothesis cos_d_close : forall x : R, (Rabs (cos_d x - cos x) <= 1 / 1000000)%R.

Lemma scaled_close (f_d f : R -> R) (x : R) :
  (Rabs (f_d x - f x) <= 1 / 1000000)%R -> (-1 <= f x <= 1)%R ->
  (Rabs (rnd (127 * f_d x) - 127 * f x) <= 2 / 1000)%R.
Proof.
  intros Hc Hb. apply Rabs_le_bounds in Hc.
  pose proof (rnd_close (127 * f_d x) ltac:(apply Rabs_le; lra)) as Hr.
  apply Rabs_le_bounds in Hr. apply Rabs_le. lra.
Qed.

(** The cells of a filled table: a pair (I, Q) has the magnitude of the
    full scale 127 or a little less. *)
Lemma precalc_envelope n t s c :
  0 <= s < n -> 0 <= c < 10 ->
  let i := fst (precalc rnd sin_d cos_d M_PI n t) s c in
  let q := snd (precalc rnd sin_d cos_d M_PI n t) s c in
  15771 <= i * i + q * q <= 16129.
Proof.
  intros Hs Hc.
  destruct (precalc_lookup rnd sin_d cos_d M_PI n t s c ltac:(lia)) as [-> ->].
  assert ((0 <=? s) && (s <? n) && (0 <=? c) && (c <? 10) = true) as -> by cmp_cases.
  unfold wave_i, wave_q. set (p := wave_phase rnd cos_d M_PI n s c).
  pose proof (scaled_close sin_d sin p (sin_d_close p) (SIN_bound p)) as Hi.
  pose proof (scaled_close cos_d cos p (cos_d_close p) (COS_bound p)) as Hq.
  set (vi := rnd (127 * sin_d p)) in *. set (vq := rnd (127 * cos_d p)) in *.
  destruct (Rtrunc_near vi _ _ Hi) as [Hiu Hil].
  destruct (Rtrunc_near vq _ _ Hq) as [Hqu Hql].
  set (A := Rabs (127 * sin p)) in *. set (B := Rabs (127 * cos p)) in *.
  set (T := Rabs (IZR (Rtrunc vi))) in *. set (U := Rabs (IZR (Rtrunc vq))) in *.
  assert (A * A + B * B = 16129)%R as Hc2.
  { unfold A, B. rewrite !sq_Rabs.
    pose proof (sin2_cos2 p) as H. unfold Rsqr in H. nra. }
  pose proof (Rabs_pos (127 * sin p)) as HA. fold A in HA.
  pose proof (Rabs_pos (127 * cos p)) as HB. fold B in HB.
  pose proof (Rabs_pos (IZR (Rtrunc vi))) as HT. fold T in HT.
  pose proof (Rabs_pos (IZR (Rtrunc vq))) as HU. fold U in HU.
  pose proof (envelope_real A B T U HA HB HT HU Hc2
                ltac:(lra) ltac:(lra) ltac:(lra) ltac:(lra)) as [Hlo Hhi].
  assert (T < 128 /\ U < 128)%R as [HT128 HU128].
  { assert (A <= 127 /\ B <= 127)%R as [? ?]; [|split; lra].
    split; apply Rnot_lt_le; intros Hn; nra. }
  assert (-128 < Rtrunc vi < 128) as Hwi.
  { unfold T in HT128. apply Rabs_def2 in HT128. destruct HT128.
    split; apply lt_IZR; lra. }
  assert (-128 < Rtrunc vq < 128) as Hwq.
  { unfold U in HU128. apply Rabs_def2 in HU128. destruct HU128.
    split; apply lt_IZR; lra. }
  unfold cast_int8. rewrite !to_int8_small by lia. cbv zeta.
  unfold T, U in Hlo, Hhi. rewrite !sq_Rabs in Hlo, Hhi.
  rewrite <- !mult_IZR, <- plus_IZR in Hlo, Hhi.
  apply lt_IZR in Hlo, Hhi. lia.
Qed.

(** X6: every (I, Q) pair of the four tables is at full scale or just
    below: the square of its magnitude is between 15771 and 16129 = 127^2,
    a magnitude between 125.5 and 127. *)
Theorem tables_constant_envelope s c :
  0 <= c < 10 ->
  (0 <= s < 6666 ->
     15771 <= mi rnd sin_d cos_d M_PI s c * mi rnd sin_d cos_d M_PI s c
              + mq rnd sin_d cos_d M_PI s c * mq rnd sin_d cos_d M_PI s c
           <= 16129) /\
  (0 <= s < 3636 ->
     15771 <= si rnd sin_d cos_d M_PI s c * si rnd sin_d cos_d M_PI s c
              + sq rnd sin_d cos_d M_PI s c * sq rnd sin_d cos_d M_PI s c
           <= 16129).
Proof.
  intros Hc. split; intros Hs.
  - apply (precalc_envelope 6666 (zero_table, zero_table) s c Hs Hc).
  - apply (precalc_envelope 3636 (zero_table, zero_table) s c Hs Hc).
Qed.

End AccurateSamples.

(** * Properties of [main] *)

Lemma libcalls_app (t u : list event) :
  libcalls (t ++ u) = (libcalls t ++ libcalls u)%list.
Proof. unfold libcalls. apply flat_map_app. Qed.

Lemma printed_app (t u : list event) :
  printed (t ++ u) = (printed t ++ printed u)%list.
Proof. unfold printed. apply flat_map_app. Qed.

Lemma slept_app (t u : list event) : slept (t ++ u) = slept t + slept u.
Proof.
  induction t as [|e t IH]; [reflexivity|].
  cbn [app slept fold_right]. fold (slept (t ++ u)). fold (slept t).
  rewrite IH. destruct e; lia.
Qed.

Section MainFacts.

Variables HACKRF_SUCCESS HACKRF_TRUE : Z.
Variable w : world.

Local Abbreviation wait := (main_wait HACKRF_TRUE w).

(** One test of the waiting loop. *)
Lemma main_wait_turn fuel p :
  wait fuel p =
    if (w_streaming w (polls p) =? HACKRF_TRUE) && negb (do_exit (after_signal w p))
    then match fuel with
         | O => (Spin, after_poll (after_signal w p))
         | S fuel' =>
             wait fuel'
               {| out := out (after_poll (after_signal w p)) ++ [Sleep 1];
                  do_exit := do_exit (after_signal w p);
                  device := device p; polls := S (polls p) |}
         end
    else (Next tt, after_poll (after_signal w p)).
Proof.
  unfold after_signal, after_poll.
  destruct fuel; cbn [main_wait]; unfold bind, deliver, poll, get_do_exit,
    sigint_callback_handler, bind, emit, spin, ret;
    destruct (w_signal w (polls p)); cbn [out do_exit device polls];
    destruct (_ && _); reflexivity.
Qed.

Lemma main_wait_stops (d : nat) : forall fuel p,
  do_exit p = false ->
  (forall i, (polls p <= i < polls p + d)%nat -> going HACKRF_TRUE w i = true) ->
  going HACKRF_TRUE w (polls p + d) = false ->
  (d <= fuel)%nat ->
  exists evs p',
    wait fuel p = (Next tt, p') /\
    out p' = (out p ++ evs)%list /\
    libcalls evs = repeat hackrf_is_streaming (S d) /\
    slept evs = Z.of_nat d /\ printed evs = [] /\
    polls p' = S (polls p + d) /\ device p' = device p /\
    do_exit p' = match w_signal w (polls p + d) with
                 | None => false | Some _ => true end.
Proof.
  induction d as [|d IH]; intros fuel p Hex Hgo Hstop Hfuel.
  - rewrite Nat.add_0_r in *. unfold going in Hstop.
    rewrite main_wait_turn. unfold after_signal, after_poll.
    destruct (w_signal w (polls p)) as [signum|] eqn:Es; cbn [do_exit].
    + rewrite andb_false_r.
      eexists [Stderr "Caught signal %d\n" [signum]; Lib hackrf_is_streaming], _.
      split; [reflexivity|]. cbn [out polls device do_exit].
      rewrite <- app_assoc. repeat split.
    + rewrite andb_true_r in Hstop. rewrite Hstop. cbn [andb].
      eexists [Lib hackrf_is_streaming], _.
      split; [reflexivity|]. cbn [out polls device do_exit].
      repeat split. exact Hex.
  - destruct fuel as [|fuel]; [lia|].
    pose proof (Hgo (polls p) ltac:(lia)) as Hnow. unfold going in Hnow.
    apply andb_prop in Hnow. destruct Hnow as [Hs Hn].
    rewrite main_wait_turn. unfold after_signal, after_poll.
    destruct (w_signal w (polls p)) as [signum|] eqn:Es; [discriminate Hn|].
    rewrite Hs, Hex. cbn [andb negb out device polls do_exit].
    match goal with |- context [wait fuel ?q] => set (p1 := q) end.
    destruct (IH fuel p1) as (evs & p' & E & Eout & Ecalls & Eslept & Eprint & Epolls & Edev & Eex).
    + reflexivity.
    + intros i Hi. apply Hgo. unfold p1 in Hi. cbn [polls] in Hi. lia.
    + unfold p1. cbn [polls].
      replace (S (polls p) + d)%nat with (polls p + S d)%nat by lia.
      exact Hstop.
    + lia.
    + exists ([Lib hackrf_is_streaming; Sleep 1] ++ evs)%list, p'.
      split; [exact E|].
      unfold p1 in Eout, Epolls, Edev, Eex. cbn [out polls device] in *.
      split; [rewrite Eout, <- !app_assoc; reflexivity|].
      split; [rewrite libcalls_app, Ecalls; reflexivity|].
      split; [rewrite slept_app, Eslept; cbn [slept fold_right app]; lia|].
      split; [rewrite printed_app, Eprint; reflexivity|].
      split; [rewrite Epolls; lia|].
      split; [exact Edev|].
      rewrite Eex. replace (S (polls p) + d)%nat with (polls p + S d)%nat by lia.
      reflexivity.
Qed.

(** While every test goes on the loop is not left. *)
Lemma main_wait_spins : forall fuel p,
  do_exit p = false ->
  (forall i, (polls p <= i)%nat -> going HACKRF_TRUE w i = true) ->
  fst (wait fuel p) = Spin.
Proof.
  induction fuel as [|fuel IH]; intros p Hex Hgo;
    pose proof (Hgo (polls p) ltac:(lia)) as Hnow; unfold going in Hnow;
    apply andb_prop in Hnow; destruct Hnow as [Hs Hn];
    rewrite main_wait_turn; unfold after_signal, after_poll;
    (destruct (w_signal w (polls p)) as [signum|] eqn:Es; [discriminate Hn|]);
    rewrite Hs, Hex; cbn [andb negb]; [reflexivity|].
  apply IH; [reflexivity|]. intros i Hi. apply Hgo. cbn [polls] in Hi. lia.
Qed.

End MainFacts.

Section MainRuns.

Variables HACKRF_SUCCESS HACKRF_TRUE : Z.
Variable w : world.

Local Abbreviation run := (main HACKRF_SUCCESS HACKRF_TRUE w).

Ltac step_setup :=
  cbv [main main_setup bind lib check emit ret return_ open_device boot
       out do_exit device polls].

(** A setup that passes leaves the nine library calls, in order, and the
    device [hackrf_open] has stored. *)
Lemma main_setup_passes :
  setup_ok HACKRF_SUCCESS w ->
  exists t,
    main_setup HACKRF_SUCCESS w boot =
      (Next tt, {| out := t; do_exit := false; device := w_device w; polls := 0 |}) /\
    libcalls t = setup_calls w /\ slept t = 0 /\ printed t = [].
Proof.
  intros (H1 & H2 & H3 & H4 & H5 & H6 & H7).
  step_setup. rewrite H1, H2, H3, H4, H5, H6, H7, !Z.eqb_refl.
  eexists. split; [reflexivity|]. repeat split.
Qed.

(** X7: a setup call that fails ends [main] at once with [EXIT_FAILURE]: the
    library calls made are the calls of the setup up to the one whose test
    failed and no further, the last thing written is the message of that
    test with the result, [main] does not wait, and it calls none of
    [hackrf_stop_tx], [hackrf_close] and [hackrf_exit], also when the device
    was open or the transmitter started. *)
Theorem failed_setup_leaks_device fuel :
  ~ setup_ok HACKRF_SUCCESS w ->
  exists p,
    run fuel boot = (Return EXIT_FAILURE, p) /\
    (w_init w <> HACKRF_SUCCESS ->
       libcalls (out p) = firstn 1 (setup_calls w) /\
       last (out p) = Some (Stderr "hackrf_init() failed: %s (%d)\n" [w_init w])) /\
    (w_init w = HACKRF_SUCCESS -> w_open w <> HACKRF_SUCCESS ->
       libcalls (out p) = firstn 2 (setup_calls w) /\
       last (out p) = Some (Stderr "hackrf_open() failed: %s (%d)\n" [w_open w])) /\
    (w_init w = HACKRF_SUCCESS -> w_open w = HACKRF_SUCCESS ->
     w_rate w <> HACKRF_SUCCESS ->
       libcalls (out p) = firstn 3 (setup_calls w) /\
       last (out p) =
         Some (Stderr "hackrf_sample_rate_set() failed: %s (%d)\n" [w_rate w])) /\
    (w_init w = HACKRF_SUCCESS -> w_open w = HACKRF_SUCCESS ->
     w_rate w = HACKRF_SUCCESS -> w_bw w <> HACKRF_SUCCESS ->
       libcalls (out p) = firstn 5 (setup_calls w) /\
       last (out p) =
         Some (Stderr "hackrf_baseband_filter_bandwidth_set() failed: %s (%d)\n"
                 [w_bw w])) /\
    (w_init w = HACKRF_SUCCESS -> w_open w = HACKRF_SUCCESS ->
     w_rate w = HACKRF_SUCCESS -> w_bw w = HACKRF_SUCCESS ->
     Z.lor (w_gain w) (w_start w) <> HACKRF_SUCCESS ->
       libcalls (out p) = firstn 7 (setup_calls w) /\
       last (out p) =
         Some (Stderr "hackrf_start_tx() failed: %s (%d)\n"
                 [Z.lor (w_gain w) (w_start w)])) /\
    (w_init w = HACKRF_SUCCESS -> w_open w = HACKRF_SUCCESS ->
     w_rate w = HACKRF_SUCCESS -> w_bw w = HACKRF_SUCCESS ->
     Z.lor (w_gain w) (w_start w) = HACKRF_SUCCESS ->
     w_freq w <> HACKRF_SUCCESS ->
       libcalls (out p) = firstn 8 (setup_calls w) /\
       last (out p) = Some (Stderr "hackrf_set_freq() failed: %s (%d)\n" [w_freq w])) /\
    (w_init w = HACKRF_SUCCESS -> w_open w = HACKRF_SUCCESS ->
     w_rate w = HACKRF_SUCCESS -> w_bw w = HACKRF_SUCCESS ->
     Z.lor (w_gain w) (w_start w) = HACKRF_SUCCESS ->
     w_freq w = HACKRF_SUCCESS -> w_amp w <> HACKRF_SUCCESS ->
       libcalls (out p) = firstn 9 (setup_calls w) /\
       last (out p) =
         Some (Stderr "hackrf_set_amp_enable() failed: %s (%d)\n" [w_amp w])) /\
    ~ In hackrf_stop_tx (libcalls (out p)) /\
    ~ In hackrf_close (libcalls (out p)) /\
    ~ In hackrf_exit (libcalls (out p)) /\
    slept (out p) = 0.
Proof.
  intros Hbad. step_setup.
  destruct (Z.eqb_spec (w_init w) HACKRF_SUCCESS) as [H1|H1]; step_setup.
  2: { eexists. split; [reflexivity|]. cbn [out].
       repeat split; intros; try contradiction; cbn; intuition discriminate. }
  destruct (Z.eqb_spec (w_open w) HACKRF_SUCCESS) as [H2|H2]; step_setup.
  2: { eexists. split; [reflexivity|]. cbn [out].
       repeat split; intros; try contradiction; cbn; intuition discriminate. }
  destruct (Z.eqb_spec (w_rate w) HACKRF_SUCCESS) as [H3|H3]; step_setup.
  2: { eexists. split; [reflexivity|]. cbn [out].
       repeat split; intros; try contradiction; cbn; intuition discriminate. }
  destruct (Z.eqb_spec (w_bw w) HACKRF_SUCCESS) as [H4|H4]; step_setup.
  2: { eexists. split; [reflexivity|]. cbn [out].
       repeat split; intros; try contradiction; cbn; intuition discriminate. }
  destruct (Z.eqb_spec (Z.lor (w_gain w) (w_start w)) HACKRF_SUCCESS) as [H5|H5];
    step_setup.
  2: { eexists. split; [reflexivity|]. cbn [out].
       repeat split; intros; try contradiction; cbn; intuition discriminate. }
  destruct (Z.eqb_spec (w_freq w) HACKRF_SUCCESS) as [H6|H6]; step_setup.
  2: { eexists. split; [reflexivity|]. cbn [out].
       repeat split; intros; try contradiction; cbn; intuition discriminate. }
  destruct (Z.eqb_spec (w_amp w) HACKRF_SUCCESS) as [H7|H7]; step_setup.
  2: { eexists. split; [reflexivity|]. cbn [out].
       repeat split; intros; try contradiction; cbn; intuition discriminate. }
  exfalso. apply Hbad. repeat split; assumption.
Qed.


(** The end of [main]: the handler for a signal that has come since the
    loop, one more call of [hackrf_is_streaming], the farewell on [stdout]
    when a signal has come and on [stderr] otherwise, the shutdown when the
    device is not [NULL], and [EXIT_SUCCESS]. *)
Lemma main_cleanup_returns p :
  exists t p',
    main_cleanup HACKRF_SUCCESS w p = (Return EXIT_SUCCESS, p') /\
    out p' = (out p ++ t)%list /\
    libcalls t =
      hackrf_is_streaming ::
      match device p with
      | Some _ => [hackrf_stop_tx; hackrf_close; hackrf_exit]
      | None => []
      end /\
    slept t = 0 /\
    printed t =
      match w_signal w (polls p) with
      | Some _ => ["\nUser cancel, exiting...\n"%string]
      | None => if do_exit p then ["\nUser cancel, exiting...\n"%string] else []
      end.
Proof.
  destruct p as [o e dv n].
  unfold main_cleanup. unfold bind at 1. unfold deliver. cbn [polls].
  destruct (w_signal w n) as [signum|];
    [unfold sigint_callback_handler; unfold bind at 1; unfold emit at 1;
     cbn [out do_exit device polls]|];
    destruct e, dv as [h|];
    cbv [bind poll get_do_exit get_device lib emit ret return_
         out do_exit device polls];
    try (destruct (w_stop w =? HACKRF_SUCCESS);
         cbv [bind emit ret out do_exit device polls];
         destruct (w_close w =? HACKRF_SUCCESS);
         cbv [bind emit ret out do_exit device polls]);
    (eexists _, _; split; [reflexivity|]); cbn [out];
    rewrite <- ?app_assoc; cbn [app];
    (split; [reflexivity|]); repeat split.
Qed.

(** X8: once the setup has passed, [main] returns at the first test of the
    loop at which the device does not stream or a signal has come, with
    [EXIT_SUCCESS] whatever the shutdown calls return.  It has slept one
    second for each test before, has called [hackrf_is_streaming] once more
    after the loop, has shut the device down when [device] is not [NULL],
    and says [User cancel] exactly when a signal has come before [do_exit]
    is read after the loop: at the test that ended the loop, or between that
    test and the last call of [hackrf_is_streaming]. *)
Theorem main_runs_until_stopped (j fuel : nat) :
  setup_ok HACKRF_SUCCESS w ->
  (forall i, (i < j)%nat -> going HACKRF_TRUE w i = true) ->
  going HACKRF_TRUE w j = false ->
  (j <= fuel)%nat ->
  exists p,
    run fuel boot = (Return EXIT_SUCCESS, p) /\
    libcalls (out p) =
      (setup_calls w ++ repeat hackrf_is_streaming (j + 2) ++
       match w_device w with
       | Some _ => [hackrf_stop_tx; hackrf_close; hackrf_exit]
       | None => []
       end)%list /\
    slept (out p) = Z.of_nat j /\
    printed (out p) =
      match w_signal w j, w_signal w (S j) with
      | None, None => []
      | _, _ => ["\nUser cancel, exiting...\n"%string]
      end.
Proof.
  intros Hok Hgo Hstop Hfuel.
  destruct (main_setup_passes Hok) as (t & Esetup & Ecalls & Eslept & Eprint).
  set (p0 := {| out := t; do_exit := false; device := w_device w; polls := 0 |}) in *.
  destruct (main_wait_stops HACKRF_TRUE w j fuel p0 eq_refl)
    as (evs & p1 & Ewait & Eout & Ewcalls & Ewslept & Ewprint & Epolls & Edev & Eex);
    [intros i Hi; apply Hgo; cbn [polls p0] in Hi; lia | exact Hstop | exact Hfuel |].
  destruct (main_cleanup_returns p1)
    as (u & p2 & Eclean & Eout2 & Eucalls & Euslept & Euprint).
  cbn [polls device out p0 Nat.add] in *.
  exists p2. split.
  { unfold main, bind at 1. rewrite Esetup. fold p0.
    unfold bind at 1. rewrite Ewait. exact Eclean. }
  rewrite Eout2, Eout.
  split; [|split].
  - rewrite !libcalls_app, Ecalls, Ewcalls, Eucalls, Edev.
    replace (j + 2)%nat with (S j + 1)%nat by lia.
    rewrite repeat_app, <- !app_assoc. reflexivity.
  - rewrite !slept_app, Eslept, Ewslept, Euslept. lia.
  - rewrite !printed_app, Eprint, Ewprint, Euprint, Epolls, Eex.
    destruct (w_signal w j), (w_signal w (S j)); reflexivity.
Qed.

(** X9: once the setup has passed, [main] does not return while the device
    streams and no signal comes: no amount of fuel ends the loop. *)
Theorem main_waits_while_streaming (fuel : nat) :
  setup_ok HACKRF_SUCCESS w ->
  (forall i, going HACKRF_TRUE w i = true) ->
  fst (run fuel boot) = Spin.
Proof.
  intros Hok Hgo.
  destruct (main_setup_passes Hok) as (t & Esetup & _).
  unfold main, bind at 1. rewrite Esetup.
  pose proof (main_wait_spins HACKRF_TRUE w fuel
                {| out := t; do_exit := false; device := w_device w; polls := 0 |}
                eq_refl (fun i _ => Hgo i)) as Hspin.
  unfold bind at 1.
  destruct (main_wait HACKRF_TRUE w fuel _) as [[a|s|] p']; cbn [fst] in Hspin;
    try discriminate Hspin. reflexivity.
Qed.

(** X10: the result of [hackrf_set_txvga_gain] is not tested before the
    transmitter is started.  With [HACKRF_SUCCESS = 0], when the gain call
    fails after the calls before it have passed, [hackrf_start_tx] is called
    all the same, and [main] then returns [EXIT_FAILURE] with the message
    for [hackrf_start_tx] and the two results or-ed together. *)
Theorem gain_failure_still_starts_tx fuel :
  HACKRF_SUCCESS = 0 ->
  w_init w = 0 -> w_open w = 0 -> w_rate w = 0 -> w_bw w = 0 ->
  w_gain w <> 0 ->
  exists p,
    run fuel boot = (Return EXIT_FAILURE, p) /\
    libcalls (out p) = firstn 7 (setup_calls w) /\
    In hackrf_start_tx (libcalls (out p)) /\
    last (out p) =
      Some (Stderr "hackrf_start_tx() failed: %s (%d)\n"
              [Z.lor (w_gain w) (w_start w)]).
Proof.
  intros HS H1 H2 H3 H4 Hgain. step_setup.
  rewrite H1, H2, H3, H4, HS. cbn [Z.eqb]. step_setup.
  destruct (Z.eqb_spec (Z.lor (w_gain w) (w_start w)) 0) as [H5|H5]; step_setup.
  - apply Z.lor_eq_0_iff in H5. destruct H5 as [H5 _]. contradiction.
  - eexists. split; [reflexivity|]. cbn. intuition.
Qed.

End MainRuns.

(** * The further properties at concrete inputs *)

Lemma split_transfer_witness :
  exists tr1 st1 tr2 st2 tr,
    tx_callback zero_table zero_table zero_table zero_table 5
      (Transfer ∅ 4) main_init = Some (0, tr1, st1) /\
    tx_callback zero_table zero_table zero_table zero_table 5
      (Transfer ∅ 6) st1 = Some (0, tr2, st2) /\
    tx_callback zero_table zero_table zero_table zero_table 5
      (Transfer ∅ (4 + 6)) main_init = Some (0, tr, st2).
Proof.
  destruct (split_transfer zero_table zero_table zero_table zero_table
              5 ∅ ∅ ∅ 4 6 main_init)
    as (tr1 & st1 & tr2 & st2 & tr & E1 & E2 & E & _).
  - lia.
  - lia.
  - unfold INT_MAX. lia.
  - reflexivity.
  - simpl. lia.
  - unfold sr. simpl. lia.
  - vm_compute. lia.
  - exists tr1, st1, tr2, st2, tr. split; [exact E1|]. split; [exact E2|exact E].
Defined.

Lemma flips_follow_byte_count_witness :
  exists st',
    calls zero_table zero_table zero_table zero_table (turns sr)
      [5000000; 5000000] main_init = Some st' /\
    sn st' = (0 + 10000000) mod sr /\ ms st' = true.
Proof.
  destruct (flips_follow_byte_count zero_table zero_table zero_table zero_table
              (turns sr) [5000000; 5000000] main_init)
    as (st' & E & Esn & Ems).
  - repeat constructor; unfold sr; lia.
  - unfold sr. simpl. lia.
  - reflexivity.
  - exists st'. split; [exact E|]. split; [exact Esn|exact Ems].
Defined.

Lemma interleaved_iq_witness :
  exists tr' st',
    tx_callback zero_table zero_table zero_table zero_table 2
      (Transfer ∅ 4) mark_state = Some (0, tr', st') /\
    buffer tr' !! 4 = None.
Proof.
  destruct (interleaved_iq zero_table zero_table zero_table zero_table
              2 ∅ 4 mark_state) as (tr' & st' & E & _ & Hout).
  - unfold offsets_in_range. simpl. lia.
  - unfold INT_MAX. lia.
  - reflexivity.
  - vm_compute. lia.
  - exists tr', st'. split; [exact E|]. rewrite Hout by lia. reflexivity.
Defined.

Lemma switch_phase_error_witness :
  exists tr' st',
    tx_callback zero_table zero_table zero_table zero_table 2
      (Transfer ∅ 4) mark_state = Some (0, tr', st') /\
    6666 * so st' <= 3636 * mo st' < 6666 * (so st' + 1).
Proof.
  destruct (switch_phase_error zero_table zero_table zero_table zero_table
              2 ∅ 4 mark_state) as (tr' & st' & E & Hmark & _).
  - unfold offsets_in_range. simpl. lia.
  - unfold INT_MAX. lia.
  - vm_compute. lia.
  - exists tr', st'. split; [exact E|]. apply Hmark. reflexivity.
Defined.

Lemma emitted_bytes_in_scale_witness :
  exists tr' st',
    tx_callback Exact.mi Exact.mq Exact.si Exact.sq 2
      (Transfer ∅ 4) main_init = Some (0, tr', st') /\
    exists v, buffer tr' !! 0 = Some (to_uint8 v) /\ to_uint8 v <> 128.
Proof.
  destruct (emitted_bytes_in_scale id sin cos PI (fun x y H => H) eq_refl eq_refl
              SIN_bound COS_bound 2 ∅ 4 main_init) as (tr' & st' & E & Hb).
  - unfold offsets_in_range. simpl. lia.
  - unfold INT_MAX. lia.
  - vm_compute. lia.
  - exists tr', st'. split; [exact E|].
    destruct (Hb 0) as (v & Ev & _ & Hv); [lia|].
    exists v. split; [exact Ev|exact Hv].
Defined.

Lemma tables_constant_envelope_witness :
  15771 <= Exact.mi 0 0 * Exact.mi 0 0 + Exact.mq 0 0 * Exact.mq 0 0 <= 16129.
Proof.
  destruct (tables_constant_envelope id sin cos PI
              (fun x _ => exact_is_close id x (1 / 1000) ltac:(lra))
              (fun x => exact_is_close sin x (1 / 1000000) ltac:(lra))
              (fun x => exact_is_close cos x (1 / 1000000) ltac:(lra)) 0 0)
    as [Hmark _].
  - lia.
  - apply Hmark. lia.
Defined.

Lemma failed_setup_leaks_device_witness :
  exists p,
    main 0 1 world_no_freq 0 boot = (Return EXIT_FAILURE, p) /\
    libcalls (out p) = firstn 8 (setup_calls world_no_freq) /\
    ~ In hackrf_stop_tx (libcalls (out p)) /\
    ~ In hackrf_close (libcalls (out p)).
Proof.
  destruct (failed_setup_leaks_device 0 1 world_no_freq 0)
    as (p & E & _ & _ & _ & _ & _ & Hfreq & _ & Hstop & Hclose & _).
  - intros (_ & _ & _ & _ & _ & Hf & _). discriminate Hf.
  - exists p. split; [exact E|].
    destruct Hfreq as [Ecalls _]; try reflexivity; [discriminate|].
    repeat split; assumption.
Defined.

Lemma main_runs_until_stopped_witness :
  exists p,
    main 0 1 world_interrupted 2 boot = (Return EXIT_SUCCESS, p) /\
    slept (out p) = 2 /\
    printed (out p) = ["\nUser cancel, exiting...\n"%string].
Proof.
  destruct (main_runs_until_stopped 0 1 world_interrupted 2 2)
    as (p & E & _ & Eslept & Eprint).
  - repeat split.
  - intros i Hi. destruct i as [|[|i]]; [reflexivity|reflexivity|lia].
  - reflexivity.
  - lia.
  - exists p. split; [exact E|]. split; [exact Eslept|exact Eprint].
Defined.

(** A signal after the last test of the loop is still seen by the test of
    [do_exit] that chooses the farewell. *)
Example late_signal_is_seen :
  printed (out (snd (main 0 1 world_late_signal 0 boot))) =
    ["\nUser cancel, exiting...\n"%string] /\
  slept (out (snd (main 0 1 world_late_signal 0 boot))) = 0.
Proof. split; reflexivity. Qed.

Lemma main_waits_while_streaming_witness :
  fst (main 0 1 world_on 7 boot) = Spin.
Proof.
  apply (main_waits_while_streaming 0 1 world_on 7).
  - repeat split.
  - intros i. reflexivity.
Defined.

Lemma gain_failure_still_starts_tx_witness :
  exists p,
    main 0 1 world_no_gain 0 boot = (Return EXIT_FAILURE, p) /\
    In hackrf_start_tx (libcalls (out p)).
Proof.
  destruct (gain_failure_still_starts_tx 0 1 world_no_gain 0)
    as (p & E & _ & Hin & _); try reflexivity.
  - discriminate.
  - exists p. split; [exact E|exact Hin].
Defined.
